(** * Reliable intelligent clipper: segment planning and scoring

    A shallow embedding of [backend/app/reliable_clipper.py]
    (class [ReliableIntelligentClipper]) and the properties its
    specification states about it.

    Modelling conventions.
    - Python floats holding times are exact rationals ([Q]); the integer
      results of [int], [random.randint] and the scores are [Z].  Sums,
      products and differences are therefore not rounded.  In binary64 a
      sum such as [start_time + clip_duration] can be off by one unit in
      the last place, so that a window drawn with a length of exactly 20
      can fall short of the 20-second test and a window drawn with 90 can
      measure a hair more; statements that would turn on such a tie are
      not made below.
    - The module-level [random] generator is an explicit source of raw
      integers read through a cursor; every call of [random.uniform],
      [random.randint] and [random.choice] consumes one raw value.
    - Python dictionaries with a fixed key set are records; values decoded
      from the text-generation service keep their dynamic type ([json]).
    - Exceptions are values of [result]; [try ... except Exception] is a
      match on them. *)

From Stdlib Require Import QArith ZArith List String Ascii Bool Lia Lqa.
From Stdlib Require Import Qround Qabs DecimalString Sorted Permutation.
Import ListNotations.

Open Scope Q_scope.

(** ** Python arithmetic on rationals *)

Module Py.

(** [a < b] on floats. *)
Definition ltb (a b : Q) : bool := negb (Qle_bool b a).

(** [a <= b] on floats. *)
Definition leb (a b : Q) : bool := Qle_bool a b.

(** [max(a, b)]: the first argument unless the second is strictly larger. *)
Definition max (a b : Q) : Q := if ltb a b then b else a.

(** [min(a, b)]: the first argument unless the second is strictly smaller. *)
Definition min (a b : Q) : Q := if ltb b a then b else a.

(** [int(x)]: truncation toward zero. *)
Definition int (x : Q) : Z := if Qle_bool 0 x then Qfloor x else Qceiling x.

(** [range(n)] *)
Definition range (n : Z) : list Z := map Z.of_nat (seq 0 (Z.to_nat n)).

End Py.

(** ** The random source *)

Module Random.

(** Raw material of the generator: call number [n] reads [src n]. *)
Definition source := nat -> Z.

(** A computation that draws from the source, advancing the cursor. *)
Definition Rand (A : Type) : Type := source -> nat -> A * nat.

Definition ret {A} (a : A) : Rand A := fun _ n => (a, n).

Definition bind {A B} (m : Rand A) (k : A -> Rand B) : Rand B :=
  fun src n => let (a, n') := m src n in k a src n'.

(** [random.random()]: 53 random bits scaled into [0, 1). *)
Definition random : Rand Q :=
  fun src n => (((src n) mod 2 ^ 53) # (2 ^ 53), S n).

(** [random.uniform(a, b)] is [a + (b - a) * random()]. *)
Definition uniform (a b : Q) : Rand Q :=
  bind random (fun u => ret (a + (b - a) * u)).

(** [random.randint(a, b)]: an integer [N] with [a <= N <= b]. *)
Definition randint (a b : Z) : Rand Z :=
  fun src n => ((a + (src n) mod (b - a + 1))%Z, S n).

(** [random.choice(xs)] for a non-empty list [xs]. *)
Definition choice {A} (xs : list A) (dflt : A) : Rand A :=
  fun src n =>
    (nth (Z.to_nat ((src n) mod (Z.of_nat (List.length xs)))) xs dflt, S n).

(** The value and the cursor a computation ends with. *)
Definition run {A} (m : Rand A) (src : source) (n : nat) : A := fst (m src n).
Definition cursor {A} (m : Rand A) (src : source) (n : nat) : nat :=
  snd (m src n).

End Random.

Declare Scope rand_scope.
Delimit Scope rand_scope with rand.
Notation "x <- m ;; k" := (Random.bind m (fun x => k))
  (at level 61, m at next level, right associativity) : rand_scope.

(** ** Segment planner *)

(** A segment is the tuple [(start_time, end_time)]. *)
Abbreviation Segment := (Q * Q)%type.

Definition seg_start (s : Segment) : Q := fst s.
Definition seg_end (s : Segment) : Q := snd s.

(** Number of clips aimed at, by video length
    ([_generate_strategic_segments], the [target_clips] cascade). *)
Definition target_clips (duration : Q) : Z :=
  if Py.leb duration 300 then
    Z.min 5 (Z.max 3 (Py.int (duration / 80)))
  else if Py.leb duration 600 then
    Z.min 7 (Z.max 5 (Py.int (duration / 90)))
  else
    Z.min 8 (Z.max 6 (Py.int (duration / 120))).

(** The draw of the clip length for section [i]. *)
Definition draw_clip_duration (target : Z) (i : Z) : Random.Rand Z :=
  if (i =? 0)%Z then Random.randint 30 60
  else if (i <? target / 3)%Z then Random.randint 25 70
  else Random.randint 20 90.

(** The window [(start_time, end_time)] computed for section [i] in the body
    of [for i in range(target_clips)], in exact arithmetic. *)
Definition section_window (duration section_size : Q) (target : Z) (i : Z)
    : Random.Rand Segment :=
  (let section_start := inject_Z i * section_size in
   let section_end := Py.min (inject_Z (i + 1) * section_size) duration in
   start_offset <- Random.uniform (- section_size * 0.2) (section_size * 0.2) ;;
   let start_time := Py.max 0 (section_start + start_offset) in
   clip_duration <- draw_clip_duration target i ;;
   let end_time :=
     Py.min (start_time + inject_Z clip_duration) (duration - 1) in
   Random.ret (start_time, end_time))%rand.

(** The loop [for i in range(target_clips)], with the list [segments] it
    appends to: a window is kept when it lasts at least 20 seconds, the
    difference being taken exactly. *)
Fixpoint strategic_loop (duration section_size : Q) (target : Z)
    (sections : list Z) (segments : list Segment)
    : Random.Rand (list Segment) :=
  match sections with
  | [] => Random.ret segments
  | i :: rest =>
      (w <- section_window duration section_size target i ;;
       strategic_loop duration section_size target rest
         (if Py.leb 20 (seg_end w - seg_start w)
          then segments ++ [w]
          else segments))%rand
  end.

(** [sorted(segments, key=lambda x: x[0])]: a stable sort on the start time,
    here by insertion. *)
Fixpoint insert_by_start (x : Segment) (l : list Segment) : list Segment :=
  match l with
  | [] => [x]
  | y :: l' =>
      if Py.leb (seg_start x) (seg_start y) then x :: y :: l'
      else y :: insert_by_start x l'
  end.

Definition sorted_by_start (l : list Segment) : list Segment :=
  fold_right insert_by_start [] l.

(** One iteration of the loop of [_remove_overlaps]: [current] against
    [cleaned[-1]].  [cleaned] is seeded with the first segment and only
    grows, so the default of [last] is never read. *)
Definition overlap_step (cleaned : list Segment) (current : Segment)
    : list Segment :=
  let last := List.last cleaned (0, 0) in
  if Py.ltb (seg_start current) (seg_end last) then
    if Py.ltb (seg_start current) (seg_end last - 10) then
      cleaned
    else
      let adjusted_start := seg_end last + 1 in
      if Py.leb 20 (seg_end current - adjusted_start) then
        cleaned ++ [(adjusted_start, seg_end current)]
      else cleaned
  else
    cleaned ++ [current].

Definition remove_overlaps (segments : list Segment) : list Segment :=
  match segments with
  | [] => segments
  | first :: rest => fold_left overlap_step rest [first]
  end.

(** [_generate_strategic_segments(duration)] *)
Definition generate_strategic_segments (duration : Q)
    : Random.Rand (list Segment) :=
  (let target := target_clips duration in
   let section_size := duration / inject_Z target in
   segments <- strategic_loop duration section_size target
                 (Py.range target) [] ;;
   let segments := sorted_by_start segments in
   Random.ret (remove_overlaps segments))%rand.

(** ** Text *)

(** Python text is held as its UTF-8 encoding. *)
Module Text.

Open Scope string_scope.

(** [str(n)] for an integer. *)
Definition of_int (n : Z) : string := NilZero.string_of_int (Z.to_int n).

(** Rounding to the nearest integer, ties to even, as float formatting
    does. *)
Definition round_half_even (x : Q) : Z :=
  let f := Qfloor x in
  let r := (x - inject_Z f)%Q in
  if Py.ltb r (1 # 2) then f
  else if Py.ltb (1 # 2) r then (f + 1)%Z
  else if Z.even f then f else (f + 1)%Z.

Fixpoint zeros (n : nat) : string :=
  match n with O => "" | S n' => "0" ++ zeros n' end.

(** [format(x, '.<p>f')]: fixed-point notation with [p] decimals. *)
Definition format_fixed (p : nat) (x : Q) : string :=
  let unit := (10 ^ Z.of_nat p)%Z in
  let m := round_half_even (Qabs x * inject_Z unit) in
  let whole := of_int (m / unit) in
  let frac := of_int (m mod unit) in
  (if Py.ltb x 0 then "-" else "") ++ whole ++
  match p with
  | O => ""
  | _ => "." ++ zeros (p - String.length frac) ++ frac
  end.

(** The characters [str.strip()] removes, by their UTF-8 code units:
    the ASCII controls 9-13 and 28-31 and the space; U+0085 and U+00A0;
    U+1680, U+2000-U+200A, U+2028, U+2029, U+202F, U+205F and U+3000. *)
Definition space1 (b : N) : bool :=
  ((9 <=? b) && (b <=? 13) || (28 <=? b) && (b <=? 32))%N.

Definition space2 (b1 b2 : N) : bool :=
  ((b1 =? 194) && ((b2 =? 133) || (b2 =? 160)))%N.

Definition space3 (b1 b2 b3 : N) : bool :=
  ((b1 =? 225) && (b2 =? 154) && (b3 =? 128)
   || (b1 =? 226) && (b2 =? 128)
      && ((128 <=? b3) && (b3 <=? 138) || (b3 =? 168) || (b3 =? 169)
          || (b3 =? 175))
   || (b1 =? 226) && (b2 =? 129) && (b3 =? 159)
   || (b1 =? 227) && (b2 =? 128) && (b3 =? 128))%N.

(** Does the text consist of such characters only? *)
Fixpoint blank_bytes (bs : list N) : bool :=
  match bs with
  | [] => true
  | b1 :: r1 =>
      if space1 b1 then blank_bytes r1
      else
        match r1 with
        | [] => false
        | b2 :: r2 =>
            if space2 b1 b2 then blank_bytes r2
            else
              match r2 with
              | [] => false
              | b3 :: r3 => space3 b1 b2 b3 && blank_bytes r3
              end
        end
  end.

(** Truth value of [s.strip()]: some character is left. *)
Definition strip_nonempty (s : string) : bool :=
  negb (blank_bytes (map N_of_ascii (list_ascii_of_string s))).

(** The suffix of [s] that starts at its first opening brace. *)
Fixpoint from_first_open (s : string) : option string :=
  match s with
  | EmptyString => None
  | String c r => if Ascii.eqb c "{" then Some s else from_first_open r
  end.

(** The longest prefix of [s] that ends with a closing brace. *)
Fixpoint upto_last_close (s : string) : option string :=
  match s with
  | EmptyString => None
  | String c r =>
      match upto_last_close r with
      | Some p => Some (String c p)
      | None => if Ascii.eqb c "}" then Some (String c EmptyString) else None
      end
  end.

(** [re.search(r'\{.*\}', s, re.DOTALL)]: the greedy match runs from the
    first opening brace to the last closing brace after it. *)
Definition search_braces (s : string) : option string :=
  match from_first_open s with
  | Some (String c r) =>
      match upto_last_close r with
      | Some p => Some (String c p)
      | None => None
      end
  | _ => None
  end.

End Text.

(** ** Dynamic values and exceptions *)

(** A value decoded from JSON. An object is its key/value list. *)
#[local] Set Warnings "-register-all".
Inductive json : Type :=
  | JNull
  | JBool (b : bool)
  | JInt (n : Z)
  | JFloat (x : Q)
  | JStr (s : string)
  | JList (l : list json)
  | JDict (d : list (string * json)).

Inductive exn : Type :=
  | ZeroDivisionError
  | TypeError
  | AttributeError
  | KeyError
  | IndexError
  | JSONDecodeError
  | RequestException
  | OpenRouterAPIError (status : Z).

Inductive result (A : Type) : Type :=
  | Ok (a : A)
  | Raise (e : exn).
Arguments Ok {A} a.
Arguments Raise {A} e.

Module Exc.

Definition bind {A B} (m : result A) (k : A -> result B) : result B :=
  match m with
  | Ok a => k a
  | Raise e => Raise e
  end.

End Exc.

Declare Scope exc_scope.
Delimit Scope exc_scope with exc.
Notation "x <- m ;; k" := (Exc.bind m (fun x => k))
  (at level 61, m at next level, right associativity) : exc_scope.

Module Dyn.

Fixpoint assoc (key : string) (d : list (string * json)) : option json :=
  match d with
  | [] => None
  | (k, v) :: d' => if String.eqb key k then Some v else assoc key d'
  end.

(** [v[key]] for a text key. *)
Definition getitem (v : json) (key : string) : result json :=
  match v with
  | JDict d =>
      match assoc key d with Some x => Ok x | None => Raise KeyError end
  | _ => Raise TypeError
  end.

(** [v[0]] *)
Definition getitem0 (v : json) : result json :=
  match v with
  | JList (x :: _) => Ok x
  | JList [] => Raise IndexError
  | JStr (String c _) => Ok (JStr (String c EmptyString))
  | JStr EmptyString => Raise IndexError
  | JDict _ => Raise KeyError
  | _ => Raise TypeError
  end.

(** [v.get(key, dflt)] *)
Definition get (v : json) (key : string) (dflt : json) : result json :=
  match v with
  | JDict d =>
      match assoc key d with Some x => Ok x | None => Ok dflt end
  | _ => Raise AttributeError
  end.

(** [v[:n]] succeeds on text and lists only. *)
Definition sliceable (v : json) : result unit :=
  match v with
  | JStr _ | JList _ => Ok tt
  | _ => Raise TypeError
  end.

End Dyn.

(** ** Segment scorer *)

(** The [context] dictionary of [_analyze_segment]. *)
Module Context.
Record t : Type := mk {
  start_time : Q;
  end_time : Q;
  duration : Q;
  clip_number : Z;
  position_in_video : Q;
  total_duration : Q
}.
End Context.

(** The dictionary returned for one clip. *)
Record ClipDescriptor : Type := mkClip {
  start_time : Q;
  end_time : Q;
  duration : Q;
  title : json;
  virality_score : json;
  content_type : json;
  hook_strength : json;
  completion_score : Z;
  engagement_factors : json;
  transcript : string
}.

(** What [requests.post] hands back: the status and the outcome of
    [response.json()]. *)
Record Response : Type := mkResponse {
  status_code : Z;
  response_json : result json
}.

(** The surroundings of the clipper: the configuration flag, the
    text-generation service and the JSON decoder of the standard library. *)
Record Env : Type := mkEnv {
  openrouter_available : bool;
  requests_post : Context.t -> result Response;
  json_loads : string -> result json
}.

Section Scorer.

Local Open Scope string_scope.

(** The ten entries of [title_templates]. *)
Definition title_templates (duration : Q) (clip_number : Z) : list string :=
  let d := Text.format_fixed 0 duration in
  [ String.concat "" ["🔥 Epic Moment #"; Text.of_int clip_number; ": "; d;
                      "s of Pure Action!"];
    String.concat "" ["🎯 Must-Watch: "; d; "-Second Viral Clip!"];
    String.concat "" ["⚡ Incredible "; d; "s That Will Amaze You!"];
    String.concat "" ["🚀 Viral Alert: "; d; "s of Epic Content!"];
    String.concat "" ["💥 Mind-Blowing "; d; "-Second Moment!"];
    String.concat "" ["🎬 Cinema Gold: "; d; "s of Pure Entertainment!"];
    String.concat "" ["🔥 This "; d; "s Clip is INSANE!"];
    String.concat "" ["⭐ Highlight Reel: "; d; "s of Greatness!"];
    String.concat "" ["🎯 Perfect "; d; "s for Social Media!"];
    String.concat "" ["💎 Hidden Gem: "; d; "s of Quality Content!"] ].

(** The list [content_types] of the rule-based analysis. *)
Definition content_types : list string :=
  ["entertainment"; "educational"; "reaction"; "tutorial"; "comedy"].

(** The position bonus of the rule-based score. *)
Definition position_bonus (position : Q) (score : Z) : Random.Rand Z :=
  (if Py.ltb position 0.2 then
     b <- Random.randint 10 20 ;; Random.ret (score + b)%Z
   else if Py.ltb position 0.4 then
     b <- Random.randint 5 15 ;; Random.ret (score + b)%Z
   else if Py.ltb 0.8 position then
     b <- Random.randint 3 12 ;; Random.ret (score + b)%Z
   else Random.ret score)%rand.

(** The duration bonus of the rule-based score. *)
Definition duration_bonus (duration : Q) (score : Z) : Random.Rand Z :=
  (if Py.leb 30 duration && Py.leb duration 60 then
     b <- Random.randint 5 15 ;; Random.ret (score + b)%Z
   else if Py.leb 20 duration && Py.ltb duration 30 then
     b <- Random.randint 2 8 ;; Random.ret (score + b)%Z
   else if Py.ltb 60 duration && Py.leb duration 90 then
     b <- Random.randint 0 5 ;; Random.ret (score + b)%Z
   else Random.ret score)%rand.

(** The score of the rule-based analysis before it is capped. *)
Definition rule_based_score (position duration : Q) : Random.Rand Z :=
  (score <- Random.randint 60 80 ;;
   score <- position_bonus position score ;;
   duration_bonus duration score)%rand.

(** [_enhanced_fallback_analysis(context)] *)
Definition enhanced_fallback_analysis (context : Context.t)
    : Random.Rand ClipDescriptor :=
  (let duration := Context.duration context in
   let position := Context.position_in_video context in
   let clip_number := Context.clip_number context in
   let start_time := Context.start_time context in
   score <- rule_based_score position duration ;;
   let score := Z.min (Z.max score 30) 99 in
   title <- Random.choice (title_templates duration clip_number) "" ;;
   content_type <- Random.choice content_types "" ;;
   hook_strength <- Random.randint 50 90 ;;
   completion_score <- Random.randint 60 95 ;;
   Random.ret
     {| start_time := start_time;
        end_time := Context.end_time context;
        duration := duration;
        title := JStr title;
        virality_score := JInt score;
        content_type := JStr content_type;
        hook_strength := JInt hook_strength;
        completion_score := completion_score;
        engagement_factors :=
          JList [JStr "strategic_positioning"; JStr "optimal_duration";
                 JStr "enhanced_analysis"];
        transcript :=
          String.concat ""
            ["Strategic clip from "; Text.format_fixed 1 start_time;
             "s to "; Text.format_fixed 1 (Context.end_time context);
             "s - "; content_type; " content"] |})%rand.

(** [result["choices"][0]["message"]] *)
Definition response_message (response : Response) : result json :=
  (result <- response_json response ;;
   choices <- Dyn.getitem result "choices" ;;
   choice0 <- Dyn.getitem0 choices ;;
   Dyn.getitem choice0 "message")%exc.

(** [analysis_text]: the content, or the reasoning when the content
    strips to nothing.  The text is sliced for the log and searched, which
    only a string survives. *)
Definition analysis_text (message : json) : result string :=
  (content <- Dyn.get message "content" (JStr "") ;;
   reasoning <- Dyn.get message "reasoning" (JStr "") ;;
   stripped <- match content with
               | JStr s => Ok (Text.strip_nonempty s)
               | _ => Raise AttributeError
               end ;;
   let analysis_text := if stripped : bool then content else reasoning in
   _ <- Dyn.sliceable analysis_text ;;
   match analysis_text with
   | JStr s => Ok s
   | _ => Raise TypeError
   end)%exc.

(** The [try] block of [_analyze_with_openrouter] after a 200 status:
    [Ok None] when no brace-delimited object is found in the text. *)
Definition parse_openrouter (json_loads : string -> result json)
    (context : Context.t) (response : Response)
    : result (option ClipDescriptor) :=
  (message <- response_message response ;;
   text <- analysis_text message ;;
   match Text.search_braces text with
   | Some json_match =>
       analysis <- json_loads json_match ;;
       title <- Dyn.get analysis "title"
                  (JStr (String.append "Viral Clip "
                           (Text.of_int (Context.clip_number context)))) ;;
       virality_score <- Dyn.get analysis "virality_score" (JInt 75) ;;
       content_type <- Dyn.get analysis "content_type"
                         (JStr "entertainment") ;;
       hook_strength <- Dyn.get analysis "hook_strength" (JInt 70) ;;
       engagement_factors <- Dyn.get analysis "engagement_factors"
                               (JList [JStr "ai_analyzed"]) ;;
       Ok (Some
         {| start_time := Context.start_time context;
            end_time := Context.end_time context;
            duration := Context.duration context;
            title := title;
            virality_score := virality_score;
            content_type := content_type;
            hook_strength := hook_strength;
            completion_score := 80;
            engagement_factors := engagement_factors;
            transcript :=
              String.concat ""
                ["AI-analyzed content from ";
                 Text.format_fixed 1 (Context.start_time context);
                 "s to ";
                 Text.format_fixed 1 (Context.end_time context); "s"] |})
   | None => Ok None
   end)%exc.

(** [_analyze_with_openrouter(context)] *)
Definition analyze_with_openrouter (env : Env) (context : Context.t)
    : result ClipDescriptor :=
  (response <- requests_post env context ;;
   let failure := Raise (OpenRouterAPIError (status_code response)) in
   if (status_code response =? 200)%Z then
     match parse_openrouter (json_loads env) context response with
     | Ok (Some analysis) => Ok analysis
     | Ok None => failure
     | Raise _ => failure
     end
   else failure)%exc.

(** The [context] dictionary that [_analyze_segment] builds once the
    division [start_time / total_duration] has gone through. *)
Definition segment_context (start_time end_time : Q) (total_duration : Q)
    (clip_number : Z) : Context.t :=
  let duration := end_time - start_time in
  {| Context.start_time := start_time;
     Context.end_time := end_time;
     Context.duration := duration;
     Context.clip_number := clip_number;
     Context.position_in_video := start_time / total_duration;
     Context.total_duration := total_duration |}.

(** [_analyze_segment(start_time, end_time, total_duration, clip_number)] *)
Definition analyze_segment (env : Env) (start_time end_time : Q)
    (total_duration : Q) (clip_number : Z)
    : Random.Rand (result ClipDescriptor) :=
  if Qeq_bool total_duration 0 then Random.ret (Raise ZeroDivisionError)
  else
    let context :=
      segment_context start_time end_time total_duration clip_number in
    let fallback :=
      (c <- enhanced_fallback_analysis context ;; Random.ret (Ok c))%rand in
    if openrouter_available env then
      match analyze_with_openrouter env context with
      | Ok analysis => Random.ret (Ok analysis)
      | Raise _ => fallback
      end
    else fallback.

(** [_get_video_info]: the duration read by the probe, or the default of
    ten minutes when the probe fails. *)
Definition get_video_info (probe : option Q) : Q :=
  match probe with
  | Some d => d
  | None => 600
  end.

(** The body of [for i, (start, end) in enumerate(segments)] with the
    list [clips] it appends to; [i] is the index of the head of
    [segments]. *)
Fixpoint analyze_loop (env : Env) (duration : Q) (i : Z)
    (segments : list Segment) (clips : list ClipDescriptor)
    : Random.Rand (result (list ClipDescriptor)) :=
  match segments with
  | [] => Random.ret (Ok clips)
  | (start, end_) :: rest =>
      (r <- analyze_segment env start end_ duration (i + 1) ;;
       match r with
       | Raise e => Random.ret (Raise e)
       | Ok clip_data =>
           match Dyn.sliceable (title clip_data) with
           | Raise e => Random.ret (Raise e)
           | Ok _ =>
               analyze_loop env duration (i + 1) rest (clips ++ [clip_data])
           end
       end)%rand
  end.

(** The [try] block of [generate_intelligent_clips]. *)
Definition generate_intelligent_clips_body (env : Env) (probe : option Q)
    : Random.Rand (result (list ClipDescriptor)) :=
  (let duration := get_video_info probe in
   segments <- generate_strategic_segments duration ;;
   analyze_loop env duration 0 segments [])%rand.

(** [generate_intelligent_clips(video_path)] *)
Definition generate_intelligent_clips (env : Env) (probe : option Q)
    : Random.Rand (list ClipDescriptor) :=
  (r <- generate_intelligent_clips_body env probe ;;
   match r with
   | Ok clips => Random.ret clips
   | Raise _ => Random.ret []
   end)%rand.

End Scorer.


(** ** Vocabulary of the specification *)

(** "[x] clamped to [[lo, hi]]". *)
Definition clamp (lo hi x : Z) : Z :=
  if (x <? lo)%Z then lo else if (hi <? x)%Z then hi else x.

(** A candidate window of the planner for a video of length [d]. *)
Definition window_ok (d : Q) (s : Segment) : Prop :=
  0 <= seg_start s /\ 20 <= seg_end s - seg_start s /\ seg_end s <= d - 1.

(** Every segment ends before the next one starts. *)
Fixpoint separated (l : list Segment) : Prop :=
  match l with
  | a :: (b :: _) as t => seg_end a <= seg_start b /\ separated t
  | _ => True
  end.


(** The content types of the specification. *)
Definition content_type_enumeration : list string :=
  ["educational"; "entertainment"; "reaction"; "tutorial"; "comedy";
   "story"]%string.

(** "An integer in [[30, 99]]". *)
Definition score_in_range (v : json) : Prop :=
  exists s, v = JInt s /\ (30 <= s <= 99)%Z.

Definition type_in_enumeration (v : json) : Prop :=
  exists t, v = JStr t /\ In t content_type_enumeration.

(** A descriptor that answers the segment [(start, end_)]. *)
Definition valid_descriptor (start end_ : Q) (c : ClipDescriptor) : Prop :=
  start_time c = start /\ end_time c = end_ /\
  score_in_range (virality_score c) /\
  type_in_enumeration (content_type c).

(** The ways the call to the text-generation service fails. *)
Inductive external_failure (env : Env) (context : Context.t) : Prop :=
  | post_raises (e : exn) :
      requests_post env context = Raise e ->
      external_failure env context
  | non_success_status (r : Response) :
      requests_post env context = Ok r ->
      status_code r <> 200%Z ->
      external_failure env context
  | malformed_response (r : Response) (e : exn) :
      requests_post env context = Ok r ->
      response_message r = Raise e ->
      external_failure env context
  | malformed_text (r : Response) (message : json) (e : exn) :
      requests_post env context = Ok r ->
      response_message r = Ok message ->
      analysis_text message = Raise e ->
      external_failure env context
  | empty_text (r : Response) (message : json) (content reasoning : string) :
      requests_post env context = Ok r ->
      response_message r = Ok message ->
      Dyn.get message "content" (JStr "") = Ok (JStr content) ->
      Dyn.get message "reasoning" (JStr "") = Ok (JStr reasoning) ->
      Text.strip_nonempty content = false ->
      Text.strip_nonempty reasoning = false ->
      external_failure env context
  | no_json_object (r : Response) (message : json) (text : string) :
      requests_post env context = Ok r ->
      response_message r = Ok message ->
      analysis_text message = Ok text ->
      Text.search_braces text = None ->
      external_failure env context
  | json_parse_error (r : Response) (message : json) (text found : string)
      (e : exn) :
      requests_post env context = Ok r ->
      response_message r = Ok message ->
      analysis_text message = Ok text ->
      Text.search_braces text = Some found ->
      json_loads env found = Raise e ->
      external_failure env context.

(** The position of a text in a list of texts. *)
Fixpoint index_of (s : string) (l : list string) : option nat :=
  match l with
  | [] => None
  | x :: l' =>
      if String.eqb s x then Some O
      else match index_of s l' with Some k => Some (S k) | None => None end
  end.

(** The template a descriptor's title was made from, for clip number [k]. *)
Definition template_of (k : Z) (c : ClipDescriptor) : option nat :=
  match title c with
  | JStr s => index_of s (title_templates (duration c) k)
  | _ => None
  end.

(** The templates of a batch whose first clip has number [k]. *)
Fixpoint batch_templates (k : Z) (clips : list ClipDescriptor)
    : list (option nat) :=
  match clips with
  | [] => []
  | c :: rest => template_of k c :: batch_templates (k + 1) rest
  end.

(** ** Sample surroundings *)

Module Sample.

(** A source of evenly spread raw values. *)
Definition steady : Random.source :=
  fun n => (Z.of_nat n * 1234567891234567)%Z.

(** The source that answers every draw with [k]. *)
Definition constant (k : Z) : Random.source := fun _ => k.

(** A source read from a list, zero afterwards. *)
Definition listed (l : list Z) : Random.source := fun n => nth n l 0%Z.


(** Draws for a ten-minute video whose first two clips both last 30
    seconds and both pick the second title template. *)
Definition twins : Random.source :=
  listed [2 ^ 52; 0; 2 ^ 52; 5; 2 ^ 52; 10; 2 ^ 52; 10; 2 ^ 52; 10;
          2 ^ 52; 10; 0; 0; 0; 1; 0; 0; 0; 0; 0; 0; 1]%Z.

(** No key configured. *)
Definition unconfigured : Env :=
  {| openrouter_available := false;
     requests_post := fun _ => Raise RequestException;
     json_loads := fun _ => Raise JSONDecodeError |}.

Definition quote : string := String (ascii_of_nat 34) EmptyString.

(** A 200 reply whose message carries [text] as its content. *)
Definition reply_with (text : string) : Response :=
  {| status_code := 200;
     response_json :=
       Ok (JDict [("choices"%string,
                   JList [JDict [("message"%string,
                                  JDict [("content"%string,
                                          JStr text)])]])]) |}.

(** A service that answers [text], which decodes to [decoded]. *)
Definition answering (text : string) (decoded : json) : Env :=
  {| openrouter_available := true;
     requests_post := fun _ => Ok (reply_with text);
     json_loads :=
       fun s => if String.eqb s text then Ok decoded
                else Raise JSONDecodeError |}.

(** The reply [{"virality_score": 150}]. *)
Definition text_score_150 : string :=
  String.concat "" ["{"; quote; "virality_score"; quote; ": 150}"]%string.

Definition score_150 : Env :=
  answering text_score_150 (JDict [("virality_score"%string, JInt 150)]).

(** The reply [{"title": 5}]. *)
Definition text_title_5 : string :=
  String.concat "" ["{"; quote; "title"; quote; ": 5}"]%string.

Definition title_5 : Env :=
  answering text_title_5 (JDict [("title"%string, JInt 5)]).

(** A service that answers with a 503 status. *)
Definition unavailable : Env :=
  {| openrouter_available := true;
     requests_post :=
       fun _ => Ok {| status_code := 503;
                      response_json := Raise JSONDecodeError |};
     json_loads := fun _ => Raise JSONDecodeError |}.

End Sample.

(** ** The constructor and the probe *)

(** [__init__]: [openrouter_available] is [bool(settings.openrouter_api_key)],
    true for a key that is a non-empty text.  The key, the service and the
    decoder are what the clipper is built around. *)
Definition init (api_key : option string)
    (post : Context.t -> result Response) (loads : string -> result json)
    : Env :=
  {| openrouter_available :=
       match api_key with
       | Some (String _ _) => true
       | _ => false
       end;
     requests_post := post;
     json_loads := loads |}.

(** The dictionary [_get_video_info] returns; the default one holds the
    duration only. *)
Module VideoInfo.
Record t : Type := mk {
  duration : Q;
  bitrate : option Z;
  size : option Z
}.
End VideoInfo.

(** The [try] block of [_get_video_info].  [stdout] is what running the
    probe leaves ([Raise] when the process fails), [loads] the JSON decoder,
    [to_float] and [to_int] the conversions [float(...)] and [int(...)]. *)
Definition video_info_try (loads : string -> result json)
    (to_float : json -> result Q) (to_int : json -> result Z)
    (stdout : result string) : result VideoInfo.t :=
  (out <- stdout ;;
   data <- loads out ;;
   format <- Dyn.getitem data "format"%string ;;
   d <- Dyn.getitem format "duration"%string ;;
   duration <- to_float d ;;
   format <- Dyn.getitem data "format"%string ;;
   b <- Dyn.get format "bit_rate"%string (JInt 0) ;;
   bitrate <- to_int b ;;
   format <- Dyn.getitem data "format"%string ;;
   s <- Dyn.getitem format "size"%string ;;
   size <- to_int s ;;
   Ok {| VideoInfo.duration := duration;
         VideoInfo.bitrate := Some bitrate;
         VideoInfo.size := Some size |})%exc.

(** [_get_video_info(video_path)] *)
Definition video_info (loads : string -> result json)
    (to_float : json -> result Q) (to_int : json -> result Z)
    (stdout : result string) : VideoInfo.t :=
  match video_info_try loads to_float to_int stdout with
  | Ok info => info
  | Raise _ =>
      {| VideoInfo.duration := 600;
         VideoInfo.bitrate := None;
         VideoInfo.size := None |}
  end.

(** The duration the probe delivers, if it does. *)
Definition probe_duration (loads : string -> result json)
    (to_float : json -> result Q) (to_int : json -> result Z)
    (stdout : result string) : option Q :=
  match video_info_try loads to_float to_int stdout with
  | Ok info => Some (VideoInfo.duration info)
  | Raise _ => None
  end.

(** ** Further vocabulary *)

(** [inner] lies within [outer] and ends with it. *)
Definition contained (inner outer : Segment) : Prop :=
  seg_end inner = seg_end outer /\ seg_start outer <= seg_start inner.

(** Does the character occur in the text? *)
Fixpoint occurs (c : ascii) (s : string) : bool :=
  match s with
  | EmptyString => false
  | String x r => Ascii.eqb x c || occurs c r
  end.

(** [d.get(key, dflt)] on the key/value list of a decoded object. *)
Definition decoded_field (d : list (string * json)) (key : string)
    (dflt : json) : json :=
  match Dyn.assoc key d with
  | Some v => v
  | None => dflt
  end.

(** The descriptor the assisted path builds from the decoded object [d]. *)
Definition assisted_descriptor (context : Context.t)
    (d : list (string * json)) : ClipDescriptor :=
  {| start_time := Context.start_time context;
     end_time := Context.end_time context;
     duration := Context.duration context;
     title :=
       decoded_field d "title"%string
         (JStr (String.append "Viral Clip "%string
                  (Text.of_int (Context.clip_number context))));
     virality_score := decoded_field d "virality_score"%string (JInt 75);
     content_type := decoded_field d "content_type"%string (JStr "entertainment"%string);
     hook_strength := decoded_field d "hook_strength"%string (JInt 70);
     completion_score := 80;
     engagement_factors :=
       decoded_field d "engagement_factors"%string (JList [JStr "ai_analyzed"%string]);
     transcript :=
       String.concat ""%string
         ["AI-analyzed content from "%string;
          Text.format_fixed 1 (Context.start_time context);
          "s to "%string;
          Text.format_fixed 1 (Context.end_time context); "s"%string] |}.

(** The three tags of a rule-based descriptor. *)
Definition rule_based_marker : json :=
  JList [JStr "strategic_positioning"%string; JStr "optimal_duration"%string;
         JStr "enhanced_analysis"%string].

(** A number drawn between [lo] and [hi]. *)
Definition int_between (lo hi : Z) (v : json) : Prop :=
  exists k, v = JInt k /\ (lo <= k <= hi)%Z.

(** Conversions and a decoder for a probe whose output holds a duration of
    12.5 seconds and nothing else. *)
Module SampleProbe.
Definition loads : string -> result json :=
  fun _ => Ok (JDict [("format"%string,
                       JDict [("duration"%string, JFloat (25 # 2))])]).
Definition to_float : json -> result Q :=
  fun v => match v with
           | JFloat x => Ok x
           | JInt k => Ok (inject_Z k)
           | _ => Raise TypeError
           end.
Definition to_int : json -> result Z :=
  fun v => match v with
           | JInt k => Ok k
           | _ => Raise TypeError
           end.
End SampleProbe.

(** ** Comparisons *)

Lemma ltb_true (a b : Q) : Py.ltb a b = true <-> a < b.
Proof.
  unfold Py.ltb. rewrite negb_true_iff, <- not_true_iff_false, Qle_bool_iff.
  split; [apply Qnot_le_lt | apply Qlt_not_le].
Qed.

Lemma ltb_false (a b : Q) : Py.ltb a b = false <-> b <= a.
Proof.
  unfold Py.ltb. rewrite negb_false_iff. apply Qle_bool_iff.
Qed.

Lemma leb_true (a b : Q) : Py.leb a b = true <-> a <= b.
Proof. apply Qle_bool_iff. Qed.

Lemma leb_false (a b : Q) : Py.leb a b = false <-> b < a.
Proof.
  unfold Py.leb. rewrite <- not_true_iff_false, Qle_bool_iff.
  split; [apply Qnot_le_lt | apply Qlt_not_le].
Qed.

(** Turn the outcome of the next comparison in the goal into a fact. *)
Ltac split_test :=
  match goal with
  | |- context [Py.ltb ?a ?b] =>
      let H := fresh "Hlt" in
      destruct (Py.ltb a b) eqn:H;
      [apply ltb_true in H | apply ltb_false in H]
  | |- context [Py.leb ?a ?b] =>
      let H := fresh "Hle" in
      destruct (Py.leb a b) eqn:H;
      [apply leb_true in H | apply leb_false in H]
  end.

Lemma max_lower (a b : Q) : a <= Py.max a b.
Proof. unfold Py.max. split_test; lra. Qed.

Lemma min_upper (a b : Q) : Py.min a b <= b.
Proof. unfold Py.min. split_test; lra. Qed.

Lemma clamp_min_max (lo hi x : Z) :
  (lo <= hi)%Z -> Z.min hi (Z.max lo x) = clamp lo hi x.
Proof.
  intros H. unfold clamp.
  destruct (Z.ltb_spec x lo); [lia|].
  destruct (Z.ltb_spec hi x); lia.
Qed.

Lemma clamp_range (lo hi x : Z) :
  (lo <= hi)%Z -> (lo <= clamp lo hi x <= hi)%Z.
Proof.
  intros H. unfold clamp.
  destruct (Z.ltb_spec x lo); [lia|].
  destruct (Z.ltb_spec hi x); lia.
Qed.

(** ** Target count *)

(** C4: the target count is [int(duration/80)] clamped to [[3,5]] up to 300
    seconds, [int(duration/90)] clamped to [[5,7]] above that up to 600
    seconds, and [int(duration/120)] clamped to [[6,8]] beyond; at the tier
    boundaries 300, 301, 600 and 601 it lies in [[3,5]], [[5,7]], [[5,7]]
    and [[6,8]]. *)
Theorem target_clips_tiers (duration : Q) :
  (duration <= 300 ->
     target_clips duration = clamp 3 5 (Py.int (duration / 80))) /\
  (300 < duration /\ duration <= 600 ->
     target_clips duration = clamp 5 7 (Py.int (duration / 90))) /\
  (600 < duration ->
     target_clips duration = clamp 6 8 (Py.int (duration / 120))) /\
  (3 <= target_clips 300 <= 5)%Z /\
  (5 <= target_clips 301 <= 7)%Z /\
  (5 <= target_clips 600 <= 7)%Z /\
  (6 <= target_clips 601 <= 8)%Z.
Proof.
  repeat split; try (vm_compute; congruence).
  - intros H. unfold target_clips.
    apply leb_true in H. rewrite H. apply clamp_min_max; lia.
  - intros [H1 H2]. unfold target_clips.
    apply leb_false in H1. apply leb_true in H2. rewrite H1, H2.
    apply clamp_min_max; lia.
  - intros H. unfold target_clips.
    assert (H1 : 300 < duration) by lra.
    apply leb_false in H, H1. rewrite H, H1.
    apply clamp_min_max; lia.
Qed.

Lemma target_clips_tiers_witness :
  target_clips 240 = clamp 3 5 (Py.int (240 / 80)) /\
  target_clips 450 = clamp 5 7 (Py.int (450 / 90)) /\
  target_clips 1500 = clamp 6 8 (Py.int (1500 / 120)).
Proof.
  split; [|split].
  - apply (proj1 (target_clips_tiers 240)). vm_compute; discriminate.
  - apply (proj1 (proj2 (target_clips_tiers 450))).
    split; [reflexivity | vm_compute; discriminate].
  - apply (proj1 (proj2 (proj2 (target_clips_tiers 1500)))). reflexivity.
Defined.

(** ** Overlap resolution *)

Lemma overlap_step_extends (cleaned : list Segment) (current : Segment) :
  exists tail, overlap_step cleaned current = cleaned ++ tail.
Proof.
  unfold overlap_step.
  repeat split_test; eauto using app_nil_r.
  all: exists []; now rewrite app_nil_r.
Qed.

Lemma overlap_pass_extends (rest cleaned : list Segment) :
  exists tail, fold_left overlap_step rest cleaned = cleaned ++ tail.
Proof.
  revert cleaned. induction rest as [|c rest IH]; intros cleaned; simpl.
  - exists []. now rewrite app_nil_r.
  - destruct (overlap_step_extends cleaned c) as [t1 E1].
    destruct (IH (overlap_step cleaned c)) as [t2 E2].
    exists (t1 ++ t2). now rewrite E2, E1, app_assoc.
Qed.

Lemma remove_overlaps_snoc (first : Segment) (pre : list Segment)
    (cur : Segment) :
  remove_overlaps (first :: pre ++ [cur]) =
  overlap_step (remove_overlaps (first :: pre)) cur.
Proof. unfold remove_overlaps. now rewrite fold_left_app. Qed.

Lemma remove_overlaps_nonempty (first : Segment) (rest : list Segment) :
  remove_overlaps (first :: rest) <> [].
Proof.
  unfold remove_overlaps.
  destruct (overlap_pass_extends rest [first]) as [t E]. rewrite E.
  discriminate.
Qed.

(** C3: in the left-to-right pass, a candidate [cur] met after the
    candidates [first :: pre] is compared with the last accepted segment.
    It is accepted unchanged when it starts at or after that segment's end,
    dropped when it starts more than 10 seconds before that end, and
    otherwise shifted to start one second after that end and accepted
    exactly when at least 20 seconds remain.  What was accepted stays so
    for the rest of the pass. *)
Theorem overlap_pass_cases (first : Segment) (pre : list Segment)
    (cur : Segment) :
  let accepted := remove_overlaps (first :: pre) in
  let last := List.last accepted (0, 0) in
  let outcome := remove_overlaps (first :: pre ++ [cur]) in
  accepted <> [] /\
  (seg_end last <= seg_start cur -> outcome = accepted ++ [cur]) /\
  (seg_start cur < seg_end last - 10 -> outcome = accepted) /\
  (seg_end last - 10 <= seg_start cur /\ seg_start cur < seg_end last ->
     (20 <= seg_end cur - (seg_end last + 1) ->
        outcome = accepted ++ [(seg_end last + 1, seg_end cur)]) /\
     (seg_end cur - (seg_end last + 1) < 20 -> outcome = accepted)) /\
  (forall post, exists tail,
     remove_overlaps (first :: pre ++ cur :: post) = outcome ++ tail).
Proof.
  intros accepted last outcome.
  assert (E : outcome = overlap_step accepted cur)
    by apply remove_overlaps_snoc.
  split; [apply remove_overlaps_nonempty|].
  rewrite E. unfold overlap_step. fold last.
  repeat split.
  - intros H. apply ltb_false in H. now rewrite H.
  - intros H.
    assert (H' : seg_start cur < seg_end last) by lra.
    apply ltb_true in H, H'. now rewrite H', H.
  - destruct H as [H1 H2]. intros H3.
    apply ltb_false in H1. apply ltb_true in H2. apply leb_true in H3.
    now rewrite H2, H1, H3.
  - destruct H as [H1 H2]. intros H3.
    apply ltb_false in H1. apply ltb_true in H2. apply leb_false in H3.
    now rewrite H2, H1, H3.
  - intros post. unfold remove_overlaps.
    replace (pre ++ cur :: post) with ((pre ++ [cur]) ++ post)
      by now rewrite <- app_assoc.
    rewrite fold_left_app.
    replace (fold_left overlap_step (pre ++ [cur]) [first])
      with (overlap_step accepted cur) by now rewrite <- E.
    apply overlap_pass_extends.
Qed.

Lemma overlap_pass_cases_witness :
  remove_overlaps [(0, 40); (50, 80); (80, 110)] = [(0, 40); (50, 80)] ++ [(80, 110)] /\
  remove_overlaps [(0, 40); (50, 80); (60, 110)] = [(0, 40); (50, 80)] /\
  remove_overlaps [(0, 40); (50, 80); (75, 110)] = [(0, 40); (50, 80)] ++ [(80 + 1, 110)] /\
  remove_overlaps [(0, 40); (50, 80); (75, 95)] = [(0, 40); (50, 80)].
Proof.
  split; [|split; [|split]].
  - apply (proj1 (proj2 (overlap_pass_cases (0, 40) [(50, 80)] (80, 110)))).
    vm_compute; discriminate.
  - apply (proj1 (proj2 (proj2
             (overlap_pass_cases (0, 40) [(50, 80)] (60, 110))))).
    reflexivity.
  - apply (proj1 (proj2 (proj2 (proj2
             (overlap_pass_cases (0, 40) [(50, 80)] (75, 110)))))).
    + split; [vm_compute; discriminate | reflexivity].
    + vm_compute; discriminate.
  - apply (proj1 (proj2 (proj2 (proj2
             (overlap_pass_cases (0, 40) [(50, 80)] (75, 95)))))).
    + split; [vm_compute; discriminate | reflexivity].
    + reflexivity.
Defined.

(** ** The planner's output *)

Lemma separated_snoc (l : list Segment) (x y : Segment) :
  separated (l ++ [x]) -> seg_end x <= seg_start y ->
  separated ((l ++ [x]) ++ [y]).
Proof.
  induction l as [|a l IH]; simpl; intros Hs Hxy.
  - auto.
  - destruct l as [|b l]; simpl in *.
    + tauto.
    + split; [tauto|]. apply IH; tauto.
Qed.

Lemma separated_nth (l : list Segment) (i : nat) (d : Segment) :
  separated l -> (S i < List.length l)%nat ->
  seg_end (nth i l d) <= seg_start (nth (S i) l d).
Proof.
  revert i. induction l as [|a l IH]; intros i Hs Hi; simpl in Hi; [lia|].
  destruct l as [|b l]; simpl in Hi; [lia|].
  destruct Hs as [Hab Hs].
  destruct i as [|i]; [exact Hab|].
  apply (IH i Hs). simpl. lia.
Qed.

Lemma separated_sorted (d : Q) (l : list Segment) :
  separated l -> Forall (window_ok d) l ->
  StronglySorted (fun a b => seg_start a <= seg_start b) l.
Proof.
  intros Hs Hf. apply Sorted_StronglySorted.
  - intros a b c Hab Hbc. lra.
  - induction l as [|a l IH]; [constructor|].
    inversion Hf as [|? ? Ha Hl]; subst.
    destruct l as [|b l]; [repeat constructor|].
    destruct Hs as [Hab Hs]. constructor; [now apply IH|].
    constructor. destruct Ha as (_ & Ha & _). lra.
Qed.

(** What the overlap pass maintains about the accepted list, written
    with its last element in view. *)
Definition accepted_ok (d : Q) (cleaned : list Segment) : Prop :=
  cleaned <> [] /\ Forall (window_ok d) cleaned /\ separated cleaned.

Lemma overlap_step_ok (d : Q) (cleaned : list Segment) (current : Segment) :
  accepted_ok d cleaned -> window_ok d current ->
  accepted_ok d (overlap_step cleaned current).
Proof.
  intros (Hne & Hf & Hs) Hc.
  destruct (exists_last Hne) as (init & l & ->).
  assert (Hl : window_ok d l).
  { apply Forall_app in Hf. destruct Hf as [_ Hf]. now inversion Hf. }
  unfold overlap_step. rewrite last_last.
  destruct Hl as (Hl0 & Hl20 & Hld). destruct Hc as (Hc0 & Hc20 & Hcd).
  repeat split_test; unfold accepted_ok.
  - repeat split; auto.
  - split; [now destruct init|]. split.
    + apply Forall_app. split; [exact Hf|]. constructor; [|constructor].
      unfold window_ok, seg_start, seg_end in *; simpl in *.
      repeat split; lra.
    + apply separated_snoc; [exact Hs|].
      unfold seg_start, seg_end in *; simpl; lra.
  - repeat split; auto.
  - split; [now destruct init|]. split.
    + apply Forall_app. split; [exact Hf|]. constructor; [|constructor].
      repeat split; assumption.
    + apply separated_snoc; assumption.
Qed.

Lemma remove_overlaps_ok (d : Q) (segments : list Segment) :
  Forall (window_ok d) segments ->
  Forall (window_ok d) (remove_overlaps segments) /\
  separated (remove_overlaps segments).
Proof.
  destruct segments as [|first rest]; intros Hf; [split; simpl; auto|].
  inversion Hf as [|? ? Hfirst Hrest]; subst.
  assert (H : accepted_ok d [first]).
  { split; [discriminate | split; [now constructor | exact I]]. }
  unfold remove_overlaps.
  clear Hf Hfirst. revert H.
  generalize [first] as cleaned.
  induction rest as [|c rest IH]; intros cleaned H; simpl.
  - destruct H as (_ & H1 & H2). now split.
  - inversion Hrest; subst. apply IH; [assumption|].
    now apply overlap_step_ok.
Qed.

Lemma insert_by_start_ok (P : Segment -> Prop) (x : Segment)
    (l : list Segment) :
  P x -> Forall P l -> Forall P (insert_by_start x l).
Proof.
  intros Hx. induction l as [|y l IH]; intros Hl; simpl.
  - now constructor.
  - inversion Hl; subst.
    destruct (Py.leb (seg_start x) (seg_start y)); constructor; auto.
Qed.

Lemma sorted_by_start_ok (P : Segment -> Prop) (l : list Segment) :
  Forall P l -> Forall P (sorted_by_start l).
Proof.
  induction 1; simpl; [constructor | now apply insert_by_start_ok].
Qed.

Lemma section_window_ok (d ss : Q) (t i : Z) (src : Random.source) (n : nat) :
  let w := fst (section_window d ss t i src n) in
  0 <= seg_start w /\ seg_end w <= d - 1.
Proof.
  unfold section_window, draw_clip_duration, Random.bind, Random.uniform,
    Random.random, Random.bind, Random.ret, Random.randint.
  destruct (i =? 0)%Z; [|destruct (i <? t / 3)%Z];
    cbv zeta; cbn [fst snd seg_start seg_end];
    (split; [apply max_lower | apply min_upper]).
Qed.

Lemma strategic_loop_ok (d ss : Q) (t : Z) (sections : list Z) :
  forall (segments : list Segment) (src : Random.source) (n : nat),
  Forall (window_ok d) segments ->
  Forall (window_ok d) (fst (strategic_loop d ss t sections segments src n)).
Proof.
  induction sections as [|i rest IH]; intros segments src n Hf; simpl.
  - exact Hf.
  - unfold Random.bind.
    pose proof (section_window_ok d ss t i src n) as Hw.
    destruct (section_window d ss t i src n) as [w n']. simpl in Hw.
    apply IH. split_test; [|exact Hf].
    apply Forall_app. split; [exact Hf|].
    constructor; [|constructor]. unfold window_ok. tauto.
Qed.

Lemma generate_strategic_segments_ok (d : Q) (src : Random.source) (n : nat) :
  let segments := Random.run (generate_strategic_segments d) src n in
  Forall (window_ok d) segments /\ separated segments.
Proof.
  unfold generate_strategic_segments, Random.run, Random.bind.
  pose proof (strategic_loop_ok d (d / inject_Z (target_clips d))
                (target_clips d) (Py.range (target_clips d)) [] src n
                (Forall_nil _)) as H.
  destruct (strategic_loop _ _ _ _ _ src n) as [segs n']. simpl in *.
  apply remove_overlaps_ok. now apply sorted_by_start_ok.
Qed.

(** C2: for a positive duration the plan is sorted by start time, every
    segment lasts at least 20 seconds and satisfies
    [0 <= start < end <= duration - 1 <= duration], and every segment ends
    no later than the next one starts. *)
Theorem plan_well_formed (duration : Q) (src : Random.source) (n : nat) :
  0 < duration ->
  let segments := Random.run (generate_strategic_segments duration) src n in
  StronglySorted (fun a b => seg_start a <= seg_start b) segments /\
  Forall (fun s => 20 <= seg_end s - seg_start s /\
                   0 <= seg_start s /\ seg_start s < seg_end s /\
                   seg_end s <= duration - 1 /\ seg_end s <= duration)
         segments /\
  (forall i dflt, (S i < List.length segments)%nat ->
     seg_end (nth i segments dflt) <= seg_start (nth (S i) segments dflt)).
Proof.
  intros Hd segments.
  destruct (generate_strategic_segments_ok duration src n) as [Hf Hs].
  fold segments in Hf, Hs.
  split; [now apply separated_sorted with (d := duration)|]. split.
  - revert Hf. apply Forall_impl. intros s (H0 & H20 & Hend).
    repeat split; lra.
  - intros i dflt Hi. now apply separated_nth.
Qed.

(** ** The rule-based score *)

Lemma randint_range (a b : Z) (src : Random.source) (n : nat) :
  (a <= b)%Z ->
  (a <= fst (Random.randint a b src n) <= b)%Z /\
  snd (Random.randint a b src n) = S n.
Proof.
  intros H. unfold Random.randint. simpl.
  pose proof (Z.mod_pos_bound (src n) (b - a + 1)). lia.
Qed.

(** Read one [randint] draw at the head of a computation. *)
Ltac draw_randint a b src n :=
  let H := fresh "Hdraw" in
  let Hn := fresh "Hcur" in
  let v := fresh "v" in
  let n' := fresh "n" in
  destruct (randint_range a b src n ltac:(lia)) as [H Hn];
  destruct (Random.randint a b src n) as [v n'];
  cbn [fst snd] in H, Hn; subst n'.

Lemma position_bonus_range (position : Q) (score : Z)
    (src : Random.source) (n : nat) :
  (score <= fst (position_bonus position score src n) <= score + 20)%Z.
Proof.
  unfold position_bonus, Random.bind, Random.ret.
  repeat split_test;
    try match goal with
        | |- context [Random.randint ?a ?b ?s ?m] => draw_randint a b s m
        end;
    cbn [fst]; lia.
Qed.

Lemma duration_bonus_range (duration : Q) (score : Z)
    (src : Random.source) (n : nat) :
  (score <= fst (duration_bonus duration score src n) <= score + 15)%Z.
Proof.
  unfold duration_bonus, Random.bind, Random.ret.
  repeat match goal with
         | |- context [if ?a && ?b then _ else _] => destruct (a && b)
         end;
    try match goal with
        | |- context [Random.randint ?a ?b ?s ?m] => draw_randint a b s m
        end;
    cbn [fst]; lia.
Qed.

Lemma rule_based_score_range (position duration : Q)
    (src : Random.source) (n : nat) :
  let base := fst (Random.randint 60 80 src n) in
  let raw := Random.run (rule_based_score position duration) src n in
  (60 <= base <= 80)%Z /\ (base <= raw <= base + 35)%Z.
Proof.
  unfold rule_based_score, Random.run, Random.bind.
  draw_randint 60%Z 80%Z src n. cbn [fst].
  pose proof (position_bonus_range position v src (S n)) as Hp.
  destruct (position_bonus position v src (S n)) as [s1 n1]. cbn [fst] in Hp.
  pose proof (duration_bonus_range duration s1 src n1) as Hd.
  lia.
Qed.

(** The fields of the rule-based descriptor, in terms of the draws. *)
Lemma fallback_fields (context : Context.t) (src : Random.source) (n : nat) :
  let c := Random.run (enhanced_fallback_analysis context) src n in
  let position := Context.position_in_video context in
  let raw := Random.run (rule_based_score position (Context.duration context))
               src n in
  let m := Random.cursor (rule_based_score position (Context.duration context))
             src n in
  start_time c = Context.start_time context /\
  end_time c = Context.end_time context /\
  duration c = Context.duration context /\
  virality_score c = JInt (Z.min (Z.max raw 30) 99) /\
  title c =
    JStr (nth (Z.to_nat (src m mod 10))
            (title_templates (Context.duration context)
               (Context.clip_number context)) ""%string) /\
  content_type c =
    JStr (nth (Z.to_nat (src (S m) mod 5)) content_types ""%string) /\
  Random.cursor (enhanced_fallback_analysis context) src n = S (S (S (S m))).
Proof.
  unfold enhanced_fallback_analysis, Random.run, Random.cursor, Random.bind.
  destruct (rule_based_score _ _ src n) as [raw m].
  unfold Random.choice, Random.randint, Random.ret.
  cbn [fst snd start_time end_time duration virality_score title content_type].
  repeat split.
Qed.

(** C10: on the rule-based path the score lies in [[60, 99]]: the base draw
    is at least 60 and the bonuses only add to it, so the cap at 99 is the
    only bound that acts and the floor at 30 leaves the score as it is. *)
Theorem fallback_score_range (context : Context.t)
    (src : Random.source) (n : nat) :
  let c := Random.run (enhanced_fallback_analysis context) src n in
  let base := fst (Random.randint 60 80 src n) in
  let raw := Random.run (rule_based_score (Context.position_in_video context)
                           (Context.duration context)) src n in
  (60 <= base <= raw)%Z /\
  Z.max raw 30 = raw /\
  virality_score c = JInt (Z.min raw 99) /\
  (60 <= Z.min raw 99 <= 99)%Z.
Proof.
  intros c base raw.
  destruct (rule_based_score_range (Context.position_in_video context)
              (Context.duration context) src n) as [Hb Hr].
  fold base in Hb, Hr. fold raw in Hr.
  destruct (fallback_fields context src n) as (_ & _ & _ & Hv & _).
  fold c raw in Hv.
  assert (Hmax : Z.max raw 30 = raw) by lia.
  rewrite Hmax in Hv.
  repeat split; try lia; assumption.
Qed.

(** ** The text of a reply *)

Lemma blank_bytes_no_brace (bs : list N) :
  Text.blank_bytes bs = true -> ~ In 123%N bs.
Proof.
  remember (List.length bs) as k eqn:Hk.
  revert bs Hk. induction k as [k IH] using lt_wf_ind. intros bs Hk Hb.
  destruct bs as [|b1 r1]; [auto|]. simpl in Hb, Hk.
  destruct (Text.space1 b1) eqn:E1.
  - intros [H|H].
    + subst b1. discriminate E1.
    + revert H. apply (IH (List.length r1)); [lia | reflexivity | exact Hb].
  - destruct r1 as [|b2 r2]; [discriminate|]. simpl in Hk.
    destruct (Text.space2 b1 b2) eqn:E2.
    + unfold Text.space2 in E2.
      apply andb_true_iff in E2. destruct E2 as [Ea Eb].
      apply N.eqb_eq in Ea. apply orb_true_iff in Eb.
      intros [H|[H|H]].
      * lia.
      * subst b2. destruct Eb as [Eb|Eb]; discriminate Eb.
      * revert H. apply (IH (List.length r2)); [lia | reflexivity | exact Hb].
    + destruct r2 as [|b3 r3]; [discriminate|]. simpl in Hk.
      apply andb_true_iff in Hb. destruct Hb as [E3 Hb].
      intros [H|[H|[H|H]]].
      * subst b1. destruct b2 as [|p2]; discriminate E3.
      * subst b2. unfold Text.space3 in E3. simpl in E3.
        repeat rewrite andb_false_r in E3. discriminate E3.
      * subst b3. unfold Text.space3 in E3. simpl in E3.
        repeat rewrite andb_false_r in E3. discriminate E3.
      * revert H. apply (IH (List.length r3)); [lia | reflexivity | exact Hb].
Qed.

Lemma no_brace_no_match (s : string) :
  ~ In 123%N (map N_of_ascii (list_ascii_of_string s)) ->
  Text.search_braces s = None.
Proof.
  intros H. unfold Text.search_braces.
  assert (E : Text.from_first_open s = None).
  { induction s as [|c r IH]; [reflexivity|]. simpl in *.
    destruct (Ascii.eqb_spec c "{") as [->|_].
    - exfalso. apply H. now left.
    - apply IH. intros Hin. apply H. now right. }
  now rewrite E.
Qed.

Lemma blank_no_match (s : string) :
  Text.strip_nonempty s = false -> Text.search_braces s = None.
Proof.
  unfold Text.strip_nonempty. rewrite negb_false_iff. intros H.
  now apply no_brace_no_match, blank_bytes_no_brace.
Qed.

(** ** The assisted path *)

(** Follow the calls of an exception-passing block one by one. *)
Ltac exc_cases H :=
  unfold Exc.bind in H;
  repeat match type of H with
         | context [match ?x with _ => _ end] =>
             destruct x eqn:?; try discriminate H
         end.

Lemma parse_openrouter_times (loads : string -> result json)
    (context : Context.t) (response : Response) (c : ClipDescriptor) :
  parse_openrouter loads context response = Ok (Some c) ->
  start_time c = Context.start_time context /\
  end_time c = Context.end_time context.
Proof.
  unfold parse_openrouter. intros H. exc_cases H.
  injection H as <-. split; reflexivity.
Qed.

Lemma analyze_with_openrouter_times (env : Env) (context : Context.t)
    (c : ClipDescriptor) :
  analyze_with_openrouter env context = Ok c ->
  start_time c = Context.start_time context /\
  end_time c = Context.end_time context.
Proof.
  unfold analyze_with_openrouter, Exc.bind. intros H.
  destruct (requests_post env context) as [r|e]; [|discriminate].
  destruct (status_code r =? 200)%Z; [|discriminate].
  destruct (parse_openrouter _ _ r) as [[c'|]|e] eqn:E; try discriminate.
  injection H as ->. eapply parse_openrouter_times; eassumption.
Qed.

Lemma external_failure_raises (env : Env) (context : Context.t) :
  external_failure env context ->
  exists e, analyze_with_openrouter env context = Raise e.
Proof.
  intros H. unfold analyze_with_openrouter.
  destruct H as [e H | r H Hs | r e H Hm | r m e H Hm Ht
                | r m content reasoning H Hm Hc Hr Hbc Hbr
                | r m text H Hm Ht Hs | r m text found e H Hm Ht Hs He];
    rewrite H; cbn [Exc.bind]; [eauto| | | | | |].
  - apply Z.eqb_neq in Hs. rewrite Hs. eauto.
  - destruct (status_code r =? 200)%Z; [|eauto].
    unfold parse_openrouter. rewrite Hm. cbn [Exc.bind]. eauto.
  - destruct (status_code r =? 200)%Z; [|eauto].
    unfold parse_openrouter. rewrite Hm. cbn [Exc.bind]. rewrite Ht.
    cbn [Exc.bind]. eauto.
  - destruct (status_code r =? 200)%Z; [|eauto].
    unfold parse_openrouter. rewrite Hm. cbn [Exc.bind].
    unfold analysis_text. rewrite Hc, Hr. cbn [Exc.bind]. rewrite Hbc.
    cbn [Exc.bind Dyn.sliceable]. rewrite (blank_no_match _ Hbr). eauto.
  - destruct (status_code r =? 200)%Z; [|eauto].
    unfold parse_openrouter. rewrite Hm. cbn [Exc.bind]. rewrite Ht.
    cbn [Exc.bind]. rewrite Hs. eauto.
  - destruct (status_code r =? 200)%Z; [|eauto].
    unfold parse_openrouter. rewrite Hm. cbn [Exc.bind]. rewrite Ht.
    cbn [Exc.bind]. rewrite Hs, He. cbn [Exc.bind]. eauto.
Qed.

(** ** Scoring one segment *)

Lemma fallback_valid (start end_ total : Q) (k : Z)
    (src : Random.source) (n : nat) :
  valid_descriptor start end_
    (Random.run (enhanced_fallback_analysis
                   (segment_context start end_ total k)) src n).
Proof.
  set (context := segment_context start end_ total k).
  destruct (fallback_fields context src n) as (Hs & He & _ & Hv & _ & Ht & _).
  unfold valid_descriptor. rewrite Hs, He, Hv, Ht.
  repeat split.
  - eexists. split; [reflexivity | lia].
  - eexists. split; [reflexivity|].
    pose proof (Z.mod_pos_bound
      (src (S (Random.cursor
                 (rule_based_score (Context.position_in_video context)
                    (Context.duration context)) src n))) 5 eq_refl) as Hb.
    set (i := (_ mod 5)%Z) in *.
    assert (Hi : i = 0%Z \/ i = 1%Z \/ i = 2%Z \/ i = 3%Z \/ i = 4%Z) by lia.
    destruct Hi as [-> | [-> | [-> | [-> | ->]]]]; simpl; tauto.
Qed.

Lemma analyze_segment_times (env : Env) (start end_ total : Q) (k : Z)
    (src : Random.source) (n : nat) (c : ClipDescriptor) :
  Random.run (analyze_segment env start end_ total k) src n = Ok c ->
  start_time c = start /\ end_time c = end_.
Proof.
  unfold analyze_segment, Random.run.
  destruct (Qeq_bool total 0); [discriminate|].
  set (context := segment_context start end_ total k).
  assert (Hfb : forall c',
    fst (Random.bind (enhanced_fallback_analysis context)
           (fun c0 => Random.ret (Ok c0)) src n) = Ok c' ->
    start_time c' = start /\ end_time c' = end_).
  { unfold Random.bind, Random.ret. intros c' H.
    pose proof (fallback_valid start end_ total k src n) as Hv.
    fold context in Hv. unfold Random.run in Hv.
    destruct (enhanced_fallback_analysis context src n) as [c0 n0].
    simpl in H, Hv. injection H as <-. destruct Hv as (? & ? & _). tauto. }
  destruct (openrouter_available env); [|apply Hfb].
  destruct (analyze_with_openrouter env context) as [a|e] eqn:E; [|apply Hfb].
  unfold Random.ret. simpl. intros H. injection H as <-.
  apply (analyze_with_openrouter_times _ _ _ E).
Qed.

(** C1: a reply of the service that decodes to [{"virality_score": 150}]
    is turned into a descriptor that keeps the segment's start and end but
    carries the score 150, outside [[30, 99]]: the assisted path hands the
    decoded score on as it is, where the rule-based path caps it. *)
Theorem openrouter_score_not_capped :
  exists c,
    Random.run (analyze_segment Sample.score_150 0 30 600 1) Sample.steady 0
      = Ok c /\
    start_time c = 0 /\ end_time c = 30 /\
    virality_score c = JInt 150 /\
    ~ score_in_range (virality_score c).
Proof.
  eexists. split; [vm_compute; reflexivity|].
  cbn [start_time end_time virality_score].
  repeat split. intros (s & Hs & Hr). injection Hs as <-. lia.
Qed.

(** C5: when the call to the service fails (it raises, answers with a
    status other than 200, sends a malformed body, leaves both text fields
    blank, holds no brace-delimited object, or holds one that does not
    decode), scoring the segment returns the descriptor of the rule-based
    path, which is valid; no exception reaches the caller. *)
Theorem external_failure_falls_back (env : Env) (start end_ total : Q)
    (k : Z) (src : Random.source) (n : nat) :
  ~ total == 0 ->
  external_failure env (segment_context start end_ total k) ->
  let context := segment_context start end_ total k in
  let c := Random.run (enhanced_fallback_analysis context) src n in
  Random.run (analyze_segment env start end_ total k) src n = Ok c /\
  valid_descriptor start end_ c.
Proof.
  intros Ht Hf context c.
  split; [|apply fallback_valid].
  unfold analyze_segment, Random.run.
  destruct (Qeq_bool total 0) eqn:E0.
  { apply Qeq_bool_iff in E0. contradiction. }
  fold context.
  assert (Hfb :
    fst (Random.bind (enhanced_fallback_analysis context)
           (fun c0 => Random.ret (Ok c0)) src n) = Ok c).
  { unfold c, Random.run, Random.bind, Random.ret.
    now destruct (enhanced_fallback_analysis context src n). }
  destruct (openrouter_available env); [|exact Hfb].
  destruct (external_failure_raises env context Hf) as [e ->].
  exact Hfb.
Qed.

Lemma external_failure_falls_back_witness :
  Random.run (analyze_segment Sample.unavailable 0 30 600 1) Sample.steady 0
    = Ok (Random.run (enhanced_fallback_analysis
                        (segment_context 0 30 600 1)) Sample.steady 0) /\
  valid_descriptor 0 30
    (Random.run (enhanced_fallback_analysis (segment_context 0 30 600 1))
       Sample.steady 0).
Proof.
  apply (external_failure_falls_back Sample.unavailable 0 30 600 1
           Sample.steady 0).
  - intros H. discriminate H.
  - apply non_success_status
      with (r := {| status_code := 503;
                    response_json := Raise JSONDecodeError |}).
    + reflexivity.
    + discriminate.
Defined.

(** ** Content type and title of the rule-based path *)

Lemma fallback_content_type_draw (context : Context.t) (k : Z) (n : nat) :
  (0 <= k < 5)%Z ->
  content_type (Random.run (enhanced_fallback_analysis context)
                  (Sample.constant k) n)
  = JStr (nth (Z.to_nat k) content_types ""%string).
Proof.
  intros Hk.
  destruct (fallback_fields context (Sample.constant k) n)
    as (_ & _ & _ & _ & _ & Ht & _).
  rewrite Ht. unfold Sample.constant. now rewrite Z.mod_small.
Qed.

(** C8: the rule-based path draws the content type from a list of five
    entries; every one of the five can come out, and "story", the sixth
    member of the enumeration, never does. *)
Theorem fallback_content_type_never_story (context : Context.t)
    (src : Random.source) (n : nat) :
  let c := Random.run (enhanced_fallback_analysis context) src n in
  (exists t, content_type c = JStr t /\ In t content_types) /\
  content_type c <> JStr "story" /\
  In "story"%string content_type_enumeration /\
  (forall t, In t content_types ->
     exists src', content_type
                    (Random.run (enhanced_fallback_analysis context) src' n)
                  = JStr t).
Proof.
  intros c.
  destruct (fallback_fields context src n) as (_ & _ & _ & _ & _ & Ht & _).
  fold c in Ht.
  set (m := Random.cursor _ src n) in Ht.
  pose proof (Z.mod_pos_bound (src (S m)) 5 eq_refl) as Hb.
  set (i := (src (S m) mod 5)%Z) in *.
  assert (Hi : i = 0%Z \/ i = 1%Z \/ i = 2%Z \/ i = 3%Z \/ i = 4%Z) by lia.
  split; [|split; [|split]].
  - eexists. split; [exact Ht|].
    destruct Hi as [-> | [-> | [-> | [-> | ->]]]]; simpl; tauto.
  - rewrite Ht.
    destruct Hi as [-> | [-> | [-> | [-> | ->]]]]; simpl; discriminate.
  - simpl. tauto.
  - intros t Hin. simpl in Hin.
    destruct Hin as [<- | [<- | [<- | [<- | [<- | []]]]]].
    + exists (Sample.constant 0). now apply fallback_content_type_draw.
    + exists (Sample.constant 1). now apply fallback_content_type_draw.
    + exists (Sample.constant 2). now apply fallback_content_type_draw.
    + exists (Sample.constant 3). now apply fallback_content_type_draw.
    + exists (Sample.constant 4). now apply fallback_content_type_draw.
Qed.

Lemma fallback_title_draw (context : Context.t) (j : nat) (n : nat) :
  (j < 10)%nat ->
  title (Random.run (enhanced_fallback_analysis context)
           (Sample.constant (Z.of_nat j)) n)
  = JStr (nth j (title_templates (Context.duration context)
                   (Context.clip_number context)) ""%string).
Proof.
  intros Hj.
  destruct (fallback_fields context (Sample.constant (Z.of_nat j)) n)
    as (_ & _ & _ & _ & Ht & _).
  rewrite Ht. unfold Sample.constant.
  rewrite Z.mod_small by lia. now rewrite Nat2Z.id.
Qed.

(** C9, as the code has it: the title of a rule-based descriptor is the
    template that the raw draw at the current cursor selects among the ten
    of the pool, whatever was selected before; any template can be selected
    for two descriptors scored one after the other. *)
Theorem fallback_title_independent_draw (context : Context.t)
    (src : Random.source) (n : nat) :
  let c := Random.run (enhanced_fallback_analysis context) src n in
  let m := Random.cursor
             (rule_based_score (Context.position_in_video context)
                (Context.duration context)) src n in
  let k := Z.to_nat (src m mod 10) in
  (k < 10)%nat /\
  title c = JStr (nth k (title_templates (Context.duration context)
                           (Context.clip_number context)) ""%string) /\
  (forall (next : Context.t) (j : nat), (j < 10)%nat ->
     exists src',
       let n' := Random.cursor (enhanced_fallback_analysis context) src' n in
       title (Random.run (enhanced_fallback_analysis context) src' n)
       = JStr (nth j (title_templates (Context.duration context)
                        (Context.clip_number context)) ""%string) /\
       title (Random.run (enhanced_fallback_analysis next) src' n')
       = JStr (nth j (title_templates (Context.duration next)
                        (Context.clip_number next)) ""%string)).
Proof.
  intros c m k.
  destruct (fallback_fields context src n) as (_ & _ & _ & _ & Ht & _).
  split; [|split].
  - pose proof (Z.mod_pos_bound (src m) 10 eq_refl). unfold k. lia.
  - exact Ht.
  - intros next j Hj. exists (Sample.constant (Z.of_nat j)).
    split; now apply fallback_title_draw.
Qed.

(** C9, as stated, fails: with no service configured, a ten-minute video
    and the draws [Sample.twins], the first two descriptors of the batch
    are made from the same template (they even carry the same title),
    although eight templates of the pool are still unused. *)
Lemma twin_titles_repeat_template :
  let clips :=
    Random.run (generate_intelligent_clips Sample.unconfigured (Some 600))
      Sample.twins 0 in
  (List.length clips <= 10)%nat /\
  nth_error (batch_templates 1 clips) 0 = Some (Some 1%nat) /\
  nth_error (batch_templates 1 clips) 1 = Some (Some 1%nat) /\
  nth_error (map title clips) 0 = nth_error (map title clips) 1 /\
  ~ NoDup (batch_templates 1 clips).
Proof.
  vm_compute. repeat split; try reflexivity.
  - repeat constructor.
  - intros H. inversion H as [|x l Hn _]; subst. apply Hn. now left.
Qed.

(** ** The whole batch *)

Lemma no_window_in_short_video (d : Q) (s : Segment) :
  d < 21 -> ~ window_ok d s.
Proof. intros Hd (H0 & H20 & He). lra. Qed.

Lemma plan_of_short_video (d : Q) (src : Random.source) (n : nat) :
  d < 21 -> Random.run (generate_strategic_segments d) src n = [].
Proof.
  intros Hd.
  destruct (generate_strategic_segments_ok d src n) as [Hf _].
  destruct (Random.run (generate_strategic_segments d) src n) as [|s l];
    [reflexivity|].
  inversion Hf as [|? ? Hs _]; subst.
  now apply no_window_in_short_video in Hs.
Qed.

(** C6: producing the clips never raises.  When the body of the operation
    raises, the result is the empty list; for a duration of zero or below
    the body itself ends normally with the empty list. *)
Theorem generate_never_raises (env : Env) (probe : option Q)
    (src : Random.source) (n : nat) :
  (forall e,
     Random.run (generate_intelligent_clips_body env probe) src n = Raise e ->
     Random.run (generate_intelligent_clips env probe) src n = []) /\
  (forall d, probe = Some d -> d <= 0 ->
     Random.run (generate_intelligent_clips_body env probe) src n = Ok [] /\
     Random.run (generate_intelligent_clips env probe) src n = []).
Proof.
  assert (Hwrap : forall r,
    Random.run (generate_intelligent_clips_body env probe) src n = r ->
    Random.run (generate_intelligent_clips env probe) src n =
    match r with Ok clips => clips | Raise _ => [] end).
  { intros r. unfold generate_intelligent_clips, Random.run, Random.bind.
    destruct (generate_intelligent_clips_body env probe src n) as [r' n'].
    simpl. intros ->. now destruct r. }
  split.
  - intros e H. now rewrite (Hwrap _ H).
  - intros d -> Hd.
    assert (Hbody :
      Random.run (generate_intelligent_clips_body env (Some d)) src n = Ok []).
    { unfold generate_intelligent_clips_body, Random.run, Random.bind.
      cbn [get_video_info].
      pose proof (plan_of_short_video d src n ltac:(lra)) as Hp.
      unfold Random.run in Hp.
      destruct (generate_strategic_segments d src n) as [segs n'].
      simpl in Hp. subst segs. reflexivity. }
    split; [exact Hbody | now rewrite (Hwrap _ Hbody)].
Qed.

Lemma generate_never_raises_witness :
  Random.run (generate_intelligent_clips Sample.title_5 (Some 600))
    Sample.steady 0 = [] /\
  Random.run (generate_intelligent_clips Sample.unconfigured (Some 0))
    Sample.steady 0 = [] /\
  Random.run (generate_intelligent_clips Sample.unconfigured (Some (-5)))
    Sample.steady 0 = [].
Proof.
  split; [|split].
  - apply (proj1 (generate_never_raises Sample.title_5 (Some 600)
                    Sample.steady 0) TypeError).
    vm_compute. reflexivity.
  - apply (proj2 (generate_never_raises Sample.unconfigured (Some 0)
                    Sample.steady 0) 0 eq_refl).
    vm_compute. discriminate.
  - apply (proj2 (generate_never_raises Sample.unconfigured (Some (-5))
                    Sample.steady 0) (-5) eq_refl).
    vm_compute. discriminate.
Defined.

Lemma plan_well_formed_witness :
  let segments :=
    Random.run (generate_strategic_segments 600) Sample.steady 0 in
  StronglySorted (fun a b => seg_start a <= seg_start b) segments /\
  Forall (fun s => 20 <= seg_end s - seg_start s /\
                   0 <= seg_start s /\ seg_start s < seg_end s /\
                   seg_end s <= 600 - 1 /\ seg_end s <= 600)
         segments /\
  (forall i dflt, (S i < List.length segments)%nat ->
     seg_end (nth i segments dflt) <= seg_start (nth (S i) segments dflt)).
Proof.
  apply (plan_well_formed 600 Sample.steady 0). reflexivity.
Defined.

(** ** Steps of the overlap pass *)

Lemma overlap_step_clear (init : list Segment) (l current : Segment) :
  seg_end l <= seg_start current ->
  overlap_step (init ++ [l]) current = (init ++ [l]) ++ [current].
Proof.
  intros H. unfold overlap_step. rewrite last_last.
  apply ltb_false in H. now rewrite H.
Qed.

Lemma overlap_pass_length (rest cleaned : list Segment) :
  (List.length (fold_left overlap_step rest cleaned)
   <= List.length cleaned + List.length rest)%nat.
Proof.
  revert cleaned. induction rest as [|c rest IH]; intros cleaned; simpl.
  - lia.
  - specialize (IH (overlap_step cleaned c)).
    assert (List.length (overlap_step cleaned c) <= S (List.length cleaned))%nat.
    { unfold overlap_step. repeat split_test; rewrite ?length_app; simpl; lia. }
    lia.
Qed.

(** ** The plan of a ten-minute video *)






Lemma insert_by_start_length (x : Segment) (l : list Segment) :
  List.length (insert_by_start x l) = S (List.length l).
Proof.
  induction l as [|y l IH]; simpl; [reflexivity|].
  destruct (Py.leb (seg_start x) (seg_start y)); simpl; [reflexivity|].
  now rewrite IH.
Qed.

Lemma sorted_by_start_length (l : list Segment) :
  List.length (sorted_by_start l) = List.length l.
Proof.
  induction l as [|x l IH]; simpl; [reflexivity|].
  now rewrite insert_by_start_length, IH.
Qed.




(** ** A batch scored without the service *)

Lemma analyze_segment_unconfigured (env : Env) (start end_ total : Q) (k : Z)
    (src : Random.source) (n : nat) :
  openrouter_available env = false -> ~ total == 0 ->
  let context := segment_context start end_ total k in
  analyze_segment env start end_ total k src n =
  (Ok (Random.run (enhanced_fallback_analysis context) src n),
   Random.cursor (enhanced_fallback_analysis context) src n).
Proof.
  intros Hoff Ht context. unfold analyze_segment.
  destruct (Qeq_bool total 0) eqn:E0.
  { apply Qeq_bool_iff in E0. contradiction. }
  rewrite Hoff. fold context.
  unfold Random.bind, Random.ret, Random.run, Random.cursor.
  now destruct (enhanced_fallback_analysis context src n).
Qed.







(** ** More on the overlap pass *)

Lemma separated_tail (a : Segment) (t : list Segment) :
  separated (a :: t) -> separated t.
Proof. destruct t; simpl; tauto. Qed.

Lemma separated_mid (init : list Segment) (l c : Segment)
    (rest : list Segment) :
  separated ((init ++ [l]) ++ c :: rest) -> seg_end l <= seg_start c.
Proof.
  induction init as [|a init IH]; intros H.
  - simpl in H. tauto.
  - apply IH. apply separated_tail with (a := a). exact H.
Qed.

Lemma overlap_pass_separated (rest : list Segment) :
  forall cleaned, cleaned <> [] -> separated (cleaned ++ rest) ->
  fold_left overlap_step rest cleaned = cleaned ++ rest.
Proof.
  induction rest as [|c rest IH]; intros cleaned Hne Hs; simpl.
  - now rewrite app_nil_r.
  - destruct (exists_last Hne) as (init & l & ->).
    rewrite (overlap_step_clear init l c (separated_mid _ _ _ _ Hs)).
    rewrite IH.
    + now rewrite <- app_assoc.
    + now destruct init.
    + now rewrite <- app_assoc.
Qed.

Lemma overlap_step_separated (cleaned : list Segment) (current : Segment) :
  cleaned <> [] -> separated cleaned ->
  overlap_step cleaned current <> [] /\
  separated (overlap_step cleaned current).
Proof.
  intros Hne Hs. destruct (exists_last Hne) as (init & l & ->).
  unfold overlap_step. rewrite last_last.
  repeat split_test; (split; [now destruct init|]); try exact Hs.
  - apply separated_snoc; [exact Hs|]. cbn. lra.
  - apply separated_snoc; [exact Hs|]. exact Hlt.
Qed.

Lemma remove_overlaps_separated (segments : list Segment) :
  separated (remove_overlaps segments).
Proof.
  destruct segments as [|first rest]; [exact I|].
  unfold remove_overlaps.
  assert (H : [first] <> [] /\ separated [first]) by (split; [discriminate | exact I]).
  revert H. generalize [first] as cleaned.
  induction rest as [|c rest IH]; intros cleaned [Hne Hs]; simpl.
  - exact Hs.
  - apply IH. now apply overlap_step_separated.
Qed.

(** X1: the overlap pass changes nothing in a list whose segments already
    follow one another without overlap, and so running it a second time on
    its own result changes nothing. *)
Theorem remove_overlaps_idempotent (segments : list Segment) :
  (separated segments -> remove_overlaps segments = segments) /\
  remove_overlaps (remove_overlaps segments) = remove_overlaps segments.
Proof.
  assert (Hid : forall l, separated l -> remove_overlaps l = l).
  { intros [|first rest] Hs; [reflexivity|].
    unfold remove_overlaps.
    now rewrite (overlap_pass_separated rest [first]). }
  split; [apply Hid|]. apply Hid, remove_overlaps_separated.
Qed.

Lemma remove_overlaps_idempotent_witness :
  remove_overlaps [(0, 40); (40, 80); (100, 130)]
  = [(0, 40); (40, 80); (100, 130)].
Proof.
  apply (proj1 (remove_overlaps_idempotent [(0, 40); (40, 80); (100, 130)])).
  simpl. repeat split; vm_compute; discriminate.
Defined.

Lemma overlap_step_contained (P : Segment -> Prop) (cleaned : list Segment)
    (current : Segment) :
  Forall P cleaned ->
  (forall o, contained o current -> P o) ->
  Forall P (overlap_step cleaned current).
Proof.
  intros Hc HP. unfold overlap_step.
  repeat split_test; try exact Hc; apply Forall_app; (split; [exact Hc|]);
    constructor; try constructor; apply HP; unfold contained; cbn.
  - split; [reflexivity | lra].
  - split; [reflexivity | lra].
Qed.

Lemma remove_overlaps_contained (segments : list Segment) :
  Forall (fun o => exists c, In c segments /\ contained o c)
         (remove_overlaps segments).
Proof.
  destruct segments as [|first rest]; [constructor|].
  unfold remove_overlaps.
  assert (H0 : Forall (fun o => exists c, In c (first :: rest) /\
                                          contained o c) [first]).
  { constructor; [|constructor]. exists first. split; [now left|].
    split; [reflexivity | lra]. }
  assert (Hin : forall c, In c rest -> In c (first :: rest))
    by (intros; now right).
  revert H0 Hin. generalize (first :: rest) as all.
  generalize [first] as cleaned.
  induction rest as [|c rest IH]; intros cleaned all H0 Hin; simpl.
  - exact H0.
  - apply IH.
    + apply overlap_step_contained; [exact H0|].
      intros o Ho. exists c. split; [apply Hin; now left | exact Ho].
    + intros c' Hc'. apply Hin. now right.
Qed.

Lemma remove_overlaps_length (segments : list Segment) :
  (List.length (remove_overlaps segments) <= List.length segments)%nat.
Proof.
  destruct segments as [|first rest]; [simpl; lia|].
  unfold remove_overlaps.
  etransitivity; [apply overlap_pass_length|]. simpl. lia.
Qed.

(** X2: the overlap pass keeps the first candidate as it is, never returns
    more segments than it was given, and every segment it returns ends where
    some candidate ends and starts no earlier than that candidate: it only
    drops candidates or moves their start to the right. *)
Theorem remove_overlaps_shrinks (segments : list Segment) :
  hd_error (remove_overlaps segments) = hd_error segments /\
  (List.length (remove_overlaps segments) <= List.length segments)%nat /\
  Forall (fun o => exists c, In c segments /\ contained o c)
         (remove_overlaps segments).
Proof.
  split; [|split].
  - destruct segments as [|first rest]; [reflexivity|].
    unfold remove_overlaps.
    destruct (overlap_pass_extends rest [first]) as [t ->]. reflexivity.
  - apply remove_overlaps_length.
  - apply remove_overlaps_contained.
Qed.

(** ** More on the plan *)

Lemma draw_clip_duration_cursor (t i : Z) (src : Random.source) (n : nat) :
  snd (draw_clip_duration t i src n) = S n.
Proof.
  unfold draw_clip_duration.
  destruct (i =? 0)%Z; [|destruct (i <? t / 3)%Z]; reflexivity.
Qed.

Lemma section_window_cursor (d ss : Q) (t i : Z) (src : Random.source)
    (n : nat) :
  snd (section_window d ss t i src n) = S (S n).
Proof.
  unfold section_window, Random.uniform, Random.random, Random.bind,
    Random.ret.
  pose proof (draw_clip_duration_cursor t i src (S n)) as Hn.
  destruct (draw_clip_duration t i src (S n)) as [c n'].
  cbn [snd] in *. exact Hn.
Qed.

Lemma strategic_loop_bounds (d ss : Q) (t : Z) (sections : list Z) :
  forall (segments : list Segment) (src : Random.source) (n : nat),
  let r := strategic_loop d ss t sections segments src n in
  (List.length (fst r) <= List.length segments + List.length sections)%nat /\
  snd r = (n + 2 * List.length sections)%nat.
Proof.
  induction sections as [|i rest IH]; intros segments src n; simpl.
  - split; lia.
  - unfold Random.bind.
    pose proof (section_window_cursor d ss t i src n) as Hn.
    destruct (section_window d ss t i src n) as [w n']. cbn [snd] in Hn.
    subst n'.
    set (segments' := if Py.leb 20 (seg_end w - seg_start w)
                      then segments ++ [w] else segments).
    assert (Hl : (List.length segments' <= S (List.length segments))%nat).
    { unfold segments'. destruct (Py.leb 20 _); rewrite ?length_app; simpl; lia. }
    destruct (IH segments' src (S (S n))) as (H2 & H3).
    split; lia.
Qed.

Lemma target_clips_range (d : Q) : (3 <= target_clips d <= 8)%Z.
Proof.
  unfold target_clips.
  destruct (Py.leb d 300); [|destruct (Py.leb d 600)]; lia.
Qed.

(** X3: whatever the duration and the draws, the target count lies
    between 3 and 8 and the plan holds at most that many segments, hence
    never more than 8. *)
Theorem plan_size (d : Q) (src : Random.source) (n : nat) :
  let segments := Random.run (generate_strategic_segments d) src n in
  (3 <= target_clips d <= 8)%Z /\
  (List.length segments <= Z.to_nat (target_clips d))%nat /\
  (List.length segments <= 8)%nat.
Proof.
  unfold generate_strategic_segments, Random.run, Random.bind.
  destruct (strategic_loop_bounds d (d / inject_Z (target_clips d))
              (target_clips d) (Py.range (target_clips d)) [] src n)
    as (Hl & _).
  destruct (strategic_loop _ _ _ _ _ src n) as [cands n'].
  cbn [fst snd Random.ret] in *.
  assert (Hr : List.length (Py.range (target_clips d))
               = Z.to_nat (target_clips d)).
  { unfold Py.range. now rewrite length_map, length_seq. }
  rewrite Hr in Hl. simpl in Hl.
  pose proof (remove_overlaps_length (sorted_by_start cands)) as Hlen.
  rewrite sorted_by_start_length in Hlen.
  pose proof (target_clips_range d) as Ht.
  split; [exact Ht|]. split; lia.
Qed.

(** X4: producing the clips of a video shorter than 21 seconds ends
    normally with no clip at all, whatever the service does. *)
Theorem short_video_has_no_clips (env : Env) (d : Q)
    (src : Random.source) (n : nat) :
  d < 21 ->
  Random.run (generate_intelligent_clips_body env (Some d)) src n = Ok [] /\
  Random.run (generate_intelligent_clips env (Some d)) src n = [].
Proof.
  intros Hd.
  pose proof (plan_of_short_video d src n Hd) as Hp.
  unfold generate_intelligent_clips, generate_intelligent_clips_body,
    Random.run, Random.bind in *.
  cbn [get_video_info].
  destruct (generate_strategic_segments d src n) as [segs n'].
  cbn [fst] in Hp. subst segs. split; reflexivity.
Qed.

Lemma short_video_has_no_clips_witness :
  Random.run (generate_intelligent_clips_body Sample.score_150 (Some 20))
    Sample.steady 0 = Ok [] /\
  Random.run (generate_intelligent_clips Sample.score_150 (Some 20))
    Sample.steady 0 = [].
Proof.
  apply (short_video_has_no_clips Sample.score_150 20 Sample.steady 0).
  reflexivity.
Defined.

(** X5: the planner reads exactly two raw values of the random source for
    each of its [target_clips] sections, whether the section's window is
    kept or not. *)
Theorem plan_draws (d : Q) (src : Random.source) (n : nat) :
  Random.cursor (generate_strategic_segments d) src n
  = (n + 2 * Z.to_nat (target_clips d))%nat.
Proof.
  unfold generate_strategic_segments, Random.cursor, Random.bind.
  destruct (strategic_loop_bounds d (d / inject_Z (target_clips d))
              (target_clips d) (Py.range (target_clips d)) [] src n)
    as (_ & Hn).
  destruct (strategic_loop _ _ _ _ _ src n) as [cands n'].
  cbn [fst snd Random.ret] in *. subst n'.
  unfold Py.range. now rewrite length_map, length_seq.
Qed.

(** ** More on the assisted path *)

Lemma get_dict (d : list (string * json)) (key : string) (dflt : json) :
  Dyn.get (JDict d) key dflt = Ok (decoded_field d key dflt).
Proof. unfold Dyn.get, decoded_field. now destruct (Dyn.assoc key d). Qed.

Lemma get_is_dict (v : json) (key : string) (dflt x : json) :
  Dyn.get v key dflt = Ok x -> exists d, v = JDict d.
Proof. destruct v; try discriminate. eauto. Qed.

Lemma parse_openrouter_shape (loads : string -> result json)
    (context : Context.t) (response : Response) (c : ClipDescriptor) :
  parse_openrouter loads context response = Ok (Some c) ->
  exists message text found d,
    response_message response = Ok message /\
    analysis_text message = Ok text /\
    Text.search_braces text = Some found /\
    loads found = Ok (JDict d) /\
    c = assisted_descriptor context d.
Proof.
  unfold parse_openrouter, Exc.bind. intros H.
  destruct (response_message response) as [message|] eqn:Em; [|discriminate].
  destruct (analysis_text message) as [text|] eqn:Ea; [|discriminate].
  destruct (Text.search_braces text) as [found|] eqn:Es; [|discriminate].
  destruct (loads found) as [analysis|] eqn:El; [|discriminate].
  destruct (Dyn.get analysis "title" _) as [t|] eqn:Et; [|discriminate].
  destruct (get_is_dict _ _ _ _ Et) as [d ->].
  rewrite get_dict in Et. rewrite !get_dict in H.
  injection Et as <-. injection H as <-.
  exists message, text, found, d. repeat split; reflexivity || assumption.
Qed.

Lemma parse_openrouter_success (loads : string -> result json)
    (context : Context.t) (response : Response) (message : json)
    (text found : string) (d : list (string * json)) :
  response_message response = Ok message ->
  analysis_text message = Ok text ->
  Text.search_braces text = Some found ->
  loads found = Ok (JDict d) ->
  parse_openrouter loads context response
  = Ok (Some (assisted_descriptor context d)).
Proof.
  intros Hm Ha Hs Hl. unfold parse_openrouter.
  rewrite Hm. cbn [Exc.bind]. rewrite Ha. cbn [Exc.bind]. rewrite Hs, Hl.
  cbn [Exc.bind]. rewrite !get_dict. reflexivity.
Qed.

Lemma assisted_shape (env : Env) (context : Context.t) (c : ClipDescriptor) :
  analyze_with_openrouter env context = Ok c ->
  exists d, c = assisted_descriptor context d.
Proof.
  unfold analyze_with_openrouter, Exc.bind. intros H.
  destruct (requests_post env context) as [r|]; [|discriminate].
  destruct (status_code r =? 200)%Z; [|discriminate].
  destruct (parse_openrouter _ _ r) as [[c'|]|] eqn:Ep; try discriminate.
  injection H as ->.
  destruct (parse_openrouter_shape _ _ _ _ Ep) as (_ & _ & _ & d & _ & _ & _ & _ & ->).
  now exists d.
Qed.

(** X6: the assisted path returns a descriptor exactly when the service
    answers with status 200, the message text holds a brace-delimited
    object and that object decodes to a JSON object; the descriptor then
    carries the segment's times, a completion score of 80, and for title,
    score, content type, hook strength and engagement factors the decoded
    value under that key, or the default when the key is absent. *)
Theorem assisted_path_iff (env : Env) (context : Context.t)
    (c : ClipDescriptor) :
  analyze_with_openrouter env context = Ok c <->
  exists r message text found d,
    requests_post env context = Ok r /\
    status_code r = 200%Z /\
    response_message r = Ok message /\
    analysis_text message = Ok text /\
    Text.search_braces text = Some found /\
    json_loads env found = Ok (JDict d) /\
    c = assisted_descriptor context d.
Proof.
  unfold analyze_with_openrouter, Exc.bind. split.
  - intros H.
    destruct (requests_post env context) as [r|] eqn:Er; [|discriminate].
    destruct (Z.eqb_spec (status_code r) 200) as [Hs|]; [|discriminate].
    destruct (parse_openrouter _ _ r) as [[c'|]|] eqn:Ep; try discriminate.
    injection H as ->.
    destruct (parse_openrouter_shape _ _ _ _ Ep)
      as (message & text & found & d & Hm & Ha & Hf & Hl & ->).
    exists r, message, text, found, d. repeat split; assumption.
  - intros (r & message & text & found & d & Hr & Hs & Hm & Ha & Hf & Hl & ->).
    rewrite Hr, Hs. cbn [Z.eqb Pos.eqb].
    now rewrite (parse_openrouter_success _ _ _ _ _ _ _ Hm Ha Hf Hl).
Qed.

(** ** More on scoring one segment *)

Lemma rule_based_score_cursor (position duration : Q)
    (src : Random.source) (n : nat) :
  let m := Random.cursor (rule_based_score position duration) src n in
  (n + 1 <= m <= n + 3)%nat.
Proof.
  unfold rule_based_score, position_bonus, duration_bonus, Random.cursor,
    Random.bind, Random.randint, Random.ret.
  cbn [fst snd].
  repeat match goal with
         | |- context [if ?b then _ else _] => destruct b
         end; cbn [fst snd]; lia.
Qed.

Lemma fallback_more_fields (context : Context.t) (src : Random.source)
    (n : nat) :
  let c := Random.run (enhanced_fallback_analysis context) src n in
  int_between 50 90 (hook_strength c) /\
  (60 <= completion_score c <= 95)%Z /\
  engagement_factors c = rule_based_marker /\
  exists ty,
    content_type c = JStr ty /\
    transcript c =
      String.concat ""
        ["Strategic clip from "; Text.format_fixed 1 (start_time c); "s to ";
         Text.format_fixed 1 (end_time c); "s - "; ty; " content"]%string.
Proof.
  unfold enhanced_fallback_analysis, Random.run, Random.bind.
  destruct (rule_based_score _ _ src n) as [raw m].
  unfold Random.choice, Random.randint, Random.ret.
  cbn [fst snd start_time end_time hook_strength completion_score
       engagement_factors content_type transcript].
  split; [|split; [|split]].
  - eexists. split; [reflexivity|].
    pose proof (Z.mod_pos_bound (src (S (S m))) (90 - 50 + 1) eq_refl). lia.
  - pose proof (Z.mod_pos_bound (src (S (S (S m)))) (95 - 60 + 1) eq_refl).
    lia.
  - reflexivity.
  - eexists. split; reflexivity.
Qed.

(** X7: scoring a segment raises [ZeroDivisionError], before anything is
    drawn or asked, exactly when the total duration is zero.  Otherwise it
    returns a descriptor with the segment's start and end and their
    difference as duration: the descriptor built from the service's answer,
    with no random value read, or the rule-based one. *)
Theorem analyze_segment_outcome (env : Env) (start end_ total : Q) (k : Z)
    (src : Random.source) (n : nat) :
  let context := segment_context start end_ total k in
  (total == 0 ->
     analyze_segment env start end_ total k src n
     = (Raise ZeroDivisionError, n)) /\
  (~ total == 0 ->
     exists c,
       Random.run (analyze_segment env start end_ total k) src n = Ok c /\
       start_time c = start /\ end_time c = end_ /\
       duration c = end_ - start /\
       ((openrouter_available env = true /\
         Random.cursor (analyze_segment env start end_ total k) src n = n /\
         exists d, c = assisted_descriptor context d) \/
        (c = Random.run (enhanced_fallback_analysis context) src n /\
         Random.cursor (analyze_segment env start end_ total k) src n =
         Random.cursor (enhanced_fallback_analysis context) src n))).
Proof.
  intros context. unfold analyze_segment. split.
  - intros H0. apply Qeq_bool_iff in H0. now rewrite H0.
  - intros H0. destruct (Qeq_bool total 0) eqn:E0.
    { apply Qeq_bool_iff in E0. contradiction. }
    fold context.
    assert (Hfb : forall b,
      let r := Random.bind (enhanced_fallback_analysis context)
                 (fun c0 => Random.ret (Ok c0)) src n in
      exists c, fst r = Ok c /\ start_time c = start /\ end_time c = end_ /\
        duration c = end_ - start /\
        ((b = true /\ snd r = n /\ exists d, c = assisted_descriptor context d)
         \/ (c = Random.run (enhanced_fallback_analysis context) src n /\
             snd r = Random.cursor (enhanced_fallback_analysis context) src n))).
    { intros b. cbv zeta.
      destruct (fallback_fields context src n) as (Hs & He & Hd & _).
      unfold Random.bind, Random.ret, Random.run, Random.cursor in *.
      destruct (enhanced_fallback_analysis context src n) as [c0 n0].
      cbn [fst snd] in *. exists c0. repeat split; try assumption.
      right. split; reflexivity. }
    unfold Random.run, Random.cursor.
    destruct (openrouter_available env) eqn:Eo; [|apply (Hfb false)].
    destruct (analyze_with_openrouter env context) as [a|e] eqn:Ea;
      [|apply (Hfb true)].
    apply assisted_shape in Ea. destruct Ea as [d ->].
    exists (assisted_descriptor context d). cbn [Random.ret fst snd].
    repeat split. left. repeat split. now exists d.
Qed.

(** ** More on the rule-based path *)

(** X8: besides its score, a rule-based descriptor has a hook strength in
    [[50, 90]], a completion score in [[60, 95]], the three fixed tags as
    engagement factors, the context's duration, and a transcript that
    names its start, its end and its content type; building it reads between
    five and seven raw values of the random source. *)
Theorem fallback_ranges_and_draws (context : Context.t)
    (src : Random.source) (n : nat) :
  let c := Random.run (enhanced_fallback_analysis context) src n in
  let n' := Random.cursor (enhanced_fallback_analysis context) src n in
  duration c = Context.duration context /\
  int_between 50 90 (hook_strength c) /\
  (60 <= completion_score c <= 95)%Z /\
  engagement_factors c = rule_based_marker /\
  (exists ty,
     content_type c = JStr ty /\
     transcript c =
       String.concat ""
         ["Strategic clip from "; Text.format_fixed 1 (start_time c);
          "s to "; Text.format_fixed 1 (end_time c); "s - "; ty;
          " content"]%string) /\
  (n + 5 <= n' <= n + 7)%nat.
Proof.
  intros c n'.
  destruct (fallback_fields context src n) as (_ & _ & Hd & _ & _ & _ & Hn).
  destruct (fallback_more_fields context src n) as (Hh & Hc & He & Ht).
  pose proof (rule_based_score_cursor (Context.position_in_video context)
                (Context.duration context) src n) as Hm.
  cbv zeta in Hm. fold n' in Hn. fold c in Hd, Hh, Hc, He, Ht.
  repeat split; try assumption; lia.
Qed.

Lemma randint_value (a b : Z) (src : Random.source) (n : nat) :
  Random.randint a b src n = ((a + src n mod (b - a + 1))%Z, S n).
Proof. reflexivity. Qed.

(** X9: the rule-based score of a segment that starts in the first fifth
    of the video and lasts 30 to 60 seconds is at least 75; that of a
    segment that starts between 40% and 80% of the video and lasts less than
    20 or more than 90 seconds gets no bonus and is at most 80. *)
Theorem score_by_position_and_length (context : Context.t)
    (src : Random.source) (n : nat) :
  let c := Random.run (enhanced_fallback_analysis context) src n in
  let position := Context.position_in_video context in
  let length := Context.duration context in
  (position < 0.2 -> 30 <= length /\ length <= 60 ->
     exists s, virality_score c = JInt s /\ (75 <= s <= 99)%Z) /\
  (0.4 <= position /\ position <= 0.8 -> length < 20 \/ 90 < length ->
     exists s, virality_score c = JInt s /\ (60 <= s <= 80)%Z).
Proof.
  intros c position length.
  destruct (fallback_fields context src n) as (_ & _ & _ & Hv & _).
  fold c position length in Hv.
  unfold rule_based_score, position_bonus, duration_bonus, Random.run,
    Random.bind, Random.ret in Hv.
  rewrite randint_value in Hv. cbn [fst snd] in Hv.
  pose proof (Z.mod_pos_bound (src n) (80 - 60 + 1) eq_refl) as Hb.
  split.
  - intros Hp [Hl1 Hl2].
    apply ltb_true in Hp. apply leb_true in Hl1, Hl2.
    rewrite Hp in Hv. rewrite randint_value in Hv. cbn [fst snd] in Hv.
    rewrite Hl1, Hl2 in Hv. cbn [andb] in Hv.
    rewrite randint_value in Hv. cbn [fst snd] in Hv.
    pose proof (Z.mod_pos_bound (src (S n)) (20 - 10 + 1) eq_refl).
    pose proof (Z.mod_pos_bound (src (S (S n))) (15 - 5 + 1) eq_refl).
    eexists. split; [exact Hv | lia].
  - intros [Hp1 Hp2] Hl.
    assert (H1 : Py.ltb position 0.2 = false) by (apply ltb_false; lra).
    assert (H2 : Py.ltb position 0.4 = false) by (apply ltb_false; lra).
    assert (H3 : Py.ltb 0.8 position = false) by (apply ltb_false; lra).
    rewrite H1, H2, H3 in Hv. cbn [fst snd] in Hv.
    assert (H4 : Py.leb 30 length && Py.leb length 60 = false).
    { apply andb_false_iff. destruct Hl;
        [left | right]; apply leb_false; lra. }
    assert (H5 : Py.leb 20 length && Py.ltb length 30 = false).
    { apply andb_false_iff. destruct Hl;
        [left; apply leb_false | right; apply ltb_false]; lra. }
    assert (H6 : Py.ltb 60 length && Py.leb length 90 = false).
    { apply andb_false_iff. destruct Hl;
        [left; apply ltb_false | right; apply leb_false]; lra. }
    rewrite H4, H5, H6 in Hv. cbn [fst snd] in Hv.
    eexists. split; [exact Hv | lia].
Qed.

Lemma score_by_position_and_length_witness :
  (exists s,
     virality_score
       (Random.run (enhanced_fallback_analysis (segment_context 0 30 600 1))
          Sample.steady 0) = JInt s /\ (75 <= s <= 99)%Z) /\
  (exists s,
     virality_score
       (Random.run
          (enhanced_fallback_analysis (segment_context 300 310 600 3))
          Sample.steady 0) = JInt s /\ (60 <= s <= 80)%Z).
Proof.
  split.
  - apply (proj1 (score_by_position_and_length (segment_context 0 30 600 1)
                    Sample.steady 0)).
    + reflexivity.
    + split; vm_compute; discriminate.
  - apply (proj2 (score_by_position_and_length
                    (segment_context 300 310 600 3) Sample.steady 0)).
    + split; vm_compute; discriminate.
    + left. reflexivity.
Defined.

(** ** More on the whole batch *)

Lemma analyze_segment_off (env env' : Env) (start end_ total : Q) (k : Z)
    (src : Random.source) (n : nat) :
  openrouter_available env = false -> openrouter_available env' = false ->
  analyze_segment env start end_ total k src n
  = analyze_segment env' start end_ total k src n.
Proof.
  intros H H'. unfold analyze_segment. now rewrite H, H'.
Qed.

Lemma analyze_loop_off (env env' : Env) (d : Q) :
  openrouter_available env = false -> openrouter_available env' = false ->
  forall (segments : list Segment) (i : Z) (clips : list ClipDescriptor)
         (src : Random.source) (n : nat),
  analyze_loop env d i segments clips src n
  = analyze_loop env' d i segments clips src n.
Proof.
  intros H H'. induction segments as [|[s e] rest IH]; intros i clips src n.
  - reflexivity.
  - simpl. unfold Random.bind.
    rewrite (analyze_segment_off env env' s e d (i + 1) src n H H').
    destruct (analyze_segment env' s e d (i + 1) src n) as [[c|x] n'];
      [|reflexivity].
    destruct (Dyn.sliceable (title c)); [apply IH | reflexivity].
Qed.

Lemma analyze_loop_rule_based (env : Env) (d : Q) :
  openrouter_available env = false -> ~ d == 0 ->
  forall (segments : list Segment) (i : Z) (clips : list ClipDescriptor)
         (src : Random.source) (n : nat),
  exists out,
    fst (analyze_loop env d i segments clips src n) = Ok (clips ++ out) /\
    Forall (fun c => exists context src' n',
              c = Random.run (enhanced_fallback_analysis context) src' n')
           out.
Proof.
  intros Hoff Hd. induction segments as [|[s e] rest IH];
    intros i clips src n.
  - exists []. simpl. split; [now rewrite app_nil_r | constructor].
  - simpl. unfold Random.bind.
    rewrite (analyze_segment_unconfigured env s e d (i + 1) src n Hoff Hd).
    set (context := segment_context s e d (i + 1)).
    destruct (fallback_fields context src n) as (_ & _ & _ & _ & Ht & _).
    rewrite Ht. cbn [Dyn.sliceable].
    destruct (IH (i + 1)%Z
                (clips ++ [Random.run (enhanced_fallback_analysis context)
                             src n])
                src (Random.cursor (enhanced_fallback_analysis context) src n))
      as (out & E & Hout).
    exists (Random.run (enhanced_fallback_analysis context) src n :: out).
    split.
    + rewrite E. now rewrite <- app_assoc.
    + constructor; [now exists context, src, n | exact Hout].
Qed.

(** X10: a clipper built with no key, or with an empty one, never consults
    the service: its batch is the same whatever the service and the decoder
    are, and every descriptor in it carries the three rule-based tags. *)
Theorem empty_key_ignores_service (key : option string)
    (post post' : Context.t -> result Response)
    (loads loads' : string -> result json)
    (probe : option Q) (src : Random.source) (n : nat) :
  key = None \/ key = Some EmptyString ->
  generate_intelligent_clips (init key post loads) probe src n
  = generate_intelligent_clips (init key post' loads') probe src n /\
  Forall (fun c => engagement_factors c = rule_based_marker)
         (Random.run (generate_intelligent_clips (init key post loads) probe)
            src n).
Proof.
  intros Hkey.
  assert (Hoff : forall p l, openrouter_available (init key p l) = false)
    by (intros p l; destruct Hkey as [-> | ->]; reflexivity).
  split.
  - unfold generate_intelligent_clips, generate_intelligent_clips_body,
      Random.bind.
    destruct (generate_strategic_segments (get_video_info probe) src n)
      as [segments n1].
    now rewrite (analyze_loop_off (init key post loads)
                   (init key post' loads') _ (Hoff _ _) (Hoff _ _)).
  - set (d := get_video_info probe).
    unfold generate_intelligent_clips, generate_intelligent_clips_body,
      Random.run, Random.bind.
    fold d.
    destruct (Qeq_bool d 0) eqn:E0.
    + apply Qeq_bool_iff in E0.
      pose proof (plan_of_short_video d src n ltac:(lra)) as Hp.
      unfold Random.run in Hp.
      destruct (generate_strategic_segments d src n) as [segments n1].
      cbn [fst] in Hp. subst segments. constructor.
    + assert (Hd : ~ d == 0).
      { intros H. apply Qeq_bool_iff in H. congruence. }
      destruct (generate_strategic_segments d src n) as [segments n1].
      destruct (analyze_loop_rule_based (init key post loads) d (Hoff _ _) Hd
                  segments 0%Z [] src n1) as (out & E & Hout).
      destruct (analyze_loop _ d 0 segments [] src n1) as [r n2].
      cbn [fst] in E. subst r. cbn [app Random.ret fst].
      revert Hout. apply Forall_impl.
      intros c (context & src' & n' & ->).
      now destruct (fallback_more_fields context src' n') as (_ & _ & He & _).
Qed.

Lemma empty_key_ignores_service_witness :
  generate_intelligent_clips
    (init (Some EmptyString) (requests_post Sample.score_150)
       (json_loads Sample.score_150)) (Some 600) Sample.steady 0%nat
  = generate_intelligent_clips
      (init (Some EmptyString) (requests_post Sample.unavailable)
         (json_loads Sample.unavailable)) (Some 600) Sample.steady 0%nat /\
  Forall (fun c => engagement_factors c = rule_based_marker)
         (Random.run
            (generate_intelligent_clips
               (init (Some EmptyString) (requests_post Sample.score_150)
                  (json_loads Sample.score_150)) (Some 600))
            Sample.steady 0).
Proof.
  apply (empty_key_ignores_service (Some EmptyString)). right. reflexivity.
Defined.

Lemma analyze_segment_duration (env : Env) (start end_ total : Q) (k : Z)
    (src : Random.source) (n : nat) (c : ClipDescriptor) :
  Random.run (analyze_segment env start end_ total k) src n = Ok c ->
  duration c = end_ - start.
Proof.
  unfold analyze_segment, Random.run.
  destruct (Qeq_bool total 0); [discriminate|].
  set (context := segment_context start end_ total k).
  assert (Hfb : forall c',
    fst (Random.bind (enhanced_fallback_analysis context)
           (fun c0 => Random.ret (Ok c0)) src n) = Ok c' ->
    duration c' = end_ - start).
  { unfold Random.bind, Random.ret. intros c' H.
    destruct (fallback_fields context src n) as (_ & _ & Hd & _).
    unfold Random.run in Hd.
    destruct (enhanced_fallback_analysis context src n) as [c0 n0].
    simpl in H, Hd. injection H as <-. exact Hd. }
  destruct (openrouter_available env); [|apply Hfb].
  destruct (analyze_with_openrouter env context) as [a|e] eqn:E; [|apply Hfb].
  unfold Random.ret. simpl. intros H. injection H as <-.
  apply assisted_shape in E. destruct E as [d ->]. reflexivity.
Qed.

Lemma analyze_loop_shape (env : Env) (d : Q) :
  forall (segments : list Segment) (i : Z) (clips : list ClipDescriptor)
         (src : Random.source) (n : nat) (out : list ClipDescriptor),
  fst (analyze_loop env d i segments clips src n) = Ok out ->
  exists new,
    out = clips ++ new /\
    Forall2 (fun seg c => start_time c = seg_start seg /\
                          end_time c = seg_end seg /\
                          duration c = seg_end seg - seg_start seg)
            segments new.
Proof.
  induction segments as [|[s e] rest IH]; intros i clips src n out H.
  - simpl in H. injection H as <-. exists []. split; [now rewrite app_nil_r|].
    constructor.
  - simpl in H. unfold Random.bind in H.
    pose proof (analyze_segment_times env s e d (i + 1) src n) as Ht.
    pose proof (analyze_segment_duration env s e d (i + 1) src n) as Hd.
    unfold Random.run in Ht, Hd.
    destruct (analyze_segment env s e d (i + 1) src n) as [[c|x] n'];
      [|discriminate].
    cbn [fst] in Ht, Hd.
    destruct (Dyn.sliceable (title c)); [|discriminate].
    destruct (IH _ _ _ _ _ H) as (new & -> & Hnew).
    exists (c :: new). split; [now rewrite <- app_assoc|].
    constructor; [|exact Hnew].
    destruct (Ht c eq_refl). split; [assumption|]. split; [assumption|].
    now apply Hd.
Qed.

(** X11: a batch is all or nothing.  Either it is empty, or it holds exactly
    one descriptor for each segment of the plan, in the order of the plan,
    with that segment's start and end and their difference as duration;
    clips scored before a failure are never returned on their own. *)
Theorem batch_matches_plan (env : Env) (probe : option Q)
    (src : Random.source) (n : nat) :
  let segments :=
    Random.run (generate_strategic_segments (get_video_info probe)) src n in
  let clips := Random.run (generate_intelligent_clips env probe) src n in
  clips = [] \/
  Forall2 (fun seg c => start_time c = seg_start seg /\
                        end_time c = seg_end seg /\
                        duration c = seg_end seg - seg_start seg)
          segments clips.
Proof.
  unfold generate_intelligent_clips, generate_intelligent_clips_body,
    Random.run, Random.bind.
  destruct (generate_strategic_segments (get_video_info probe) src n)
    as [segments n1].
  pose proof (analyze_loop_shape env (get_video_info probe) segments 0 []
                src n1) as H.
  destruct (analyze_loop env (get_video_info probe) 0 segments [] src n1)
    as [[out|x] n2]; cbn [fst Random.ret].
  - right. destruct (H out eq_refl) as (new & -> & Hnew). exact Hnew.
  - now left.
Qed.

(** ** More on the text of a reply *)

Section Braces.

Local Open Scope string_scope.

Lemma from_first_open_spec (s t : string) :
  Text.from_first_open s = Some t <->
  exists pre rest,
    s = pre ++ String "{" rest /\ occurs "{" pre = false /\
    t = String "{" rest.
Proof.
  split.
  - revert t. induction s as [|c r IH]; intros t H; [discriminate|].
    simpl in H. destruct (Ascii.eqb_spec c "{") as [->|Hc].
    + injection H as <-. exists "", r. repeat split.
    + destruct (IH t H) as (pre & rest & -> & Ho & ->).
      exists (String c pre), rest. repeat split. simpl.
      rewrite Ho. apply Ascii.eqb_neq in Hc. now rewrite Hc.
  - intros (pre & rest & -> & Ho & ->).
    induction pre as [|c pre IH]; simpl.
    + reflexivity.
    + simpl in Ho. apply orb_false_iff in Ho. destruct Ho as [Hc Ho].
      rewrite Hc. now apply IH.
Qed.

Lemma upto_last_close_none (r : string) :
  Text.upto_last_close r = None <-> occurs "}" r = false.
Proof.
  induction r as [|c r IH]; simpl; [tauto|].
  destruct (Text.upto_last_close r) as [p|].
  - split; [discriminate|]. intros H. apply orb_false_iff in H.
    destruct H as [_ H]. apply IH in H. discriminate.
  - destruct (Ascii.eqb c "}"); simpl.
    + split; discriminate.
    + split; [intros _; now apply IH | reflexivity].
Qed.

Lemma upto_last_close_spec (r p : string) :
  Text.upto_last_close r = Some p <->
  exists mid post,
    r = mid ++ String "}" post /\ occurs "}" post = false /\
    p = mid ++ String "}" "".
Proof.
  split.
  - revert p. induction r as [|c r IH]; intros p H; [discriminate|].
    simpl in H. destruct (Text.upto_last_close r) as [p'|] eqn:E.
    + injection H as <-.
      destruct (IH p' eq_refl) as (mid & post & -> & Ho & ->).
      exists (String c mid), post. repeat split. exact Ho.
    + destruct (Ascii.eqb_spec c "}") as [->|]; [|discriminate].
      injection H as <-. exists "", r. repeat split.
      now apply upto_last_close_none.
  - intros (mid & post & -> & Ho & ->).
    induction mid as [|c mid IH]; simpl.
    + apply upto_last_close_none in Ho. now rewrite Ho.
    + now rewrite IH.
Qed.

(** X12: the search for a brace-delimited object finds a text exactly when
    the searched text has an opening brace followed somewhere by a closing
    brace, and what it finds runs from the first opening brace to the last
    closing brace. *)
Theorem search_braces_spec (s m : string) :
  Text.search_braces s = Some m <->
  exists pre mid post,
    s = pre ++ String "{" (mid ++ String "}" post) /\
    occurs "{" pre = false /\ occurs "}" post = false /\
    m = String "{" (mid ++ String "}" "").
Proof.
  unfold Text.search_braces. split.
  - intros H.
    destruct (Text.from_first_open s) as [[|c r]|] eqn:Ef; try discriminate.
    destruct (Text.upto_last_close r) as [p|] eqn:Eu; [|discriminate].
    injection H as <-.
    apply from_first_open_spec in Ef.
    destruct Ef as (pre & rest & -> & Ho & Et). injection Et as -> ->.
    apply upto_last_close_spec in Eu.
    destruct Eu as (mid & post & -> & Hp & ->).
    exists pre, mid, post. repeat split; assumption.
  - intros (pre & mid & post & -> & Ho & Hp & ->).
    assert (Ef : Text.from_first_open
                   (pre ++ String "{" (mid ++ String "}" post))
                 = Some (String "{" (mid ++ String "}" post))).
    { apply from_first_open_spec. exists pre, (mid ++ String "}" post).
      repeat split. exact Ho. }
    rewrite Ef.
    assert (Eu : Text.upto_last_close (mid ++ String "}" post)
                 = Some (mid ++ String "}" "")).
    { apply upto_last_close_spec. exists mid, post. repeat split. exact Hp. }
    now rewrite Eu.
Qed.

(** X13: which text of the message is analysed.  A content that is a text
    with something besides white space is taken, whatever the reasoning
    field holds; a blank content gives way to the reasoning, which must then
    be a text; a content that is present but not a text (a JSON null, say)
    raises even when the reasoning field holds a text; a message that is not
    an object raises. *)
Theorem analysis_text_rules (d : list (string * json)) :
  let content := decoded_field d "content" (JStr "") in
  let reasoning := decoded_field d "reasoning" (JStr "") in
  (forall c, content = JStr c -> Text.strip_nonempty c = true ->
     analysis_text (JDict d) = Ok c) /\
  (forall c r, content = JStr c -> Text.strip_nonempty c = false ->
     reasoning = JStr r -> analysis_text (JDict d) = Ok r) /\
  (forall c, content = JStr c -> Text.strip_nonempty c = false ->
     (forall r, reasoning <> JStr r) ->
     analysis_text (JDict d) = Raise TypeError) /\
  ((forall c, content <> JStr c) ->
     analysis_text (JDict d) = Raise AttributeError) /\
  (forall v, (forall d', v <> JDict d') ->
     analysis_text v = Raise AttributeError).
Proof.
  intros content reasoning. unfold analysis_text.
  rewrite !get_dict. fold content reasoning. cbn [Exc.bind].
  repeat split.
  - intros c -> Hs. now rewrite Hs.
  - intros c r -> Hs ->. now rewrite Hs.
  - intros c -> Hs Hr. rewrite Hs. cbn [Exc.bind].
    destruct reasoning; try reflexivity. now destruct (Hr s).
  - intros Hc. destruct content; try reflexivity. now destruct (Hc s).
  - intros v Hv. destruct v; try reflexivity. now destruct (Hv d0).
Qed.

End Braces.

Lemma analysis_text_rules_witness :
  analysis_text
    (JDict [("content", JStr " "); ("reasoning", JStr "{}")]%string)
  = Ok "{}"%string /\
  analysis_text (JDict [("content", JNull); ("reasoning", JStr "{}")]%string)
  = Raise AttributeError.
Proof.
  split.
  - apply (proj1 (proj2 (analysis_text_rules
             [("content", JStr " "); ("reasoning", JStr "{}")]%string))
             " "%string "{}"%string); reflexivity.
  - apply (proj1 (proj2 (proj2 (proj2 (analysis_text_rules
             [("content", JNull); ("reasoning", JStr "{}")]%string))))).
    intros c. discriminate.
Defined.

(** ** The title pool *)

Lemma index_of_nth (l : list string) (j : nat) :
  NoDup l -> (j < List.length l)%nat ->
  index_of (nth j l EmptyString) l = Some j.
Proof.
  intros Hnd. revert j. induction Hnd as [|x l Hx Hnd IH]; intros j Hj.
  - simpl in Hj. lia.
  - destruct j as [|j]; simpl.
    + now rewrite String.eqb_refl.
    + simpl in Hj.
      destruct (String.eqb_spec (nth j l EmptyString) x) as [E|_].
      * exfalso. apply Hx. rewrite <- E. apply nth_In. lia.
      * rewrite IH by lia. reflexivity.
Qed.

Lemma title_templates_distinct (d : Q) (k : Z) : NoDup (title_templates d k).
Proof.
  unfold title_templates.
  generalize (Text.format_fixed 0 d) as ds. generalize (Text.of_int k) as ks.
  intros ks ds. cbn [String.concat String.append].
  repeat (constructor;
          [cbn [In]; intros H;
           repeat (destruct H as [H|H]; [discriminate H|]); exact H|]).
  constructor.
Qed.

(** X14: for any duration and clip number the ten titles of the pool are
    pairwise different, so the title of a rule-based descriptor tells which
    template the draw selected. *)
Theorem title_identifies_template (context : Context.t)
    (src : Random.source) (n : nat) :
  let c := Random.run (enhanced_fallback_analysis context) src n in
  let m := Random.cursor
             (rule_based_score (Context.position_in_video context)
                (Context.duration context)) src n in
  NoDup (title_templates (Context.duration context)
           (Context.clip_number context)) /\
  List.length (title_templates (Context.duration context)
                 (Context.clip_number context)) = 10%nat /\
  template_of (Context.clip_number context) c
  = Some (Z.to_nat (src m mod 10)).
Proof.
  intros c m.
  destruct (fallback_fields context src n) as (_ & _ & Hd & _ & Ht & _).
  fold c m in Hd, Ht.
  split; [apply title_templates_distinct|]. split; [reflexivity|].
  unfold template_of. rewrite Ht, Hd.
  apply index_of_nth; [apply title_templates_distinct|].
  pose proof (Z.mod_pos_bound (src m) 10 eq_refl).
  change (List.length (title_templates _ _)) with 10%nat. lia.
Qed.

(** ** The probe *)

(** X15: what the probe's output does to the duration.  When the decoded
    output has a format entry without a size, the duration falls back to
    600 seconds even if the output states one; when duration, bit rate
    (absent: 0) and size are all there and convert, the stated duration is
    used. *)
Theorem video_info_cases (loads : string -> result json)
    (to_float : json -> result Q) (to_int : json -> result Z)
    (out : string) (data format : json) :
  loads out = Ok data ->
  Dyn.getitem data "format" = Ok format ->
  (forall e, Dyn.getitem format "size" = Raise e ->
     video_info loads to_float to_int (Ok out)
     = {| VideoInfo.duration := 600;
          VideoInfo.bitrate := None;
          VideoInfo.size := None |} /\
     get_video_info (probe_duration loads to_float to_int (Ok out)) = 600) /\
  (forall dj bj sj x b s,
     Dyn.getitem format "duration" = Ok dj -> to_float dj = Ok x ->
     Dyn.get format "bit_rate" (JInt 0) = Ok bj -> to_int bj = Ok b ->
     Dyn.getitem format "size" = Ok sj -> to_int sj = Ok s ->
     video_info loads to_float to_int (Ok out)
     = {| VideoInfo.duration := x;
          VideoInfo.bitrate := Some b;
          VideoInfo.size := Some s |} /\
     get_video_info (probe_duration loads to_float to_int (Ok out)) = x).
Proof.
  intros Hl Hf. split.
  - intros e Hs.
    assert (E : exists e', video_info_try loads to_float to_int (Ok out)
                           = Raise e').
    { unfold video_info_try. cbn [Exc.bind]. rewrite Hl. cbn [Exc.bind].
      rewrite Hf. cbn [Exc.bind].
      destruct (Dyn.getitem format "duration") as [dj|];
        cbn [Exc.bind]; [|eauto].
      destruct (to_float dj); cbn [Exc.bind]; [|eauto].
      destruct (Dyn.get format "bit_rate" (JInt 0)) as [bj|];
        cbn [Exc.bind]; [|eauto].
      destruct (to_int bj); cbn [Exc.bind]; [|eauto].
      rewrite Hs. cbn [Exc.bind]. eauto. }
    destruct E as [e' E]. unfold video_info, probe_duration. rewrite E.
    split; reflexivity.
  - intros dj bj sj x b s Hd Hx Hb Hbi Hs Hsi.
    assert (E : video_info_try loads to_float to_int (Ok out)
                = Ok {| VideoInfo.duration := x;
                        VideoInfo.bitrate := Some b;
                        VideoInfo.size := Some s |}).
    { unfold video_info_try. cbn [Exc.bind]. rewrite Hl. cbn [Exc.bind].
      rewrite Hf. cbn [Exc.bind]. rewrite Hd. cbn [Exc.bind].
      rewrite Hx. cbn [Exc.bind]. rewrite Hb. cbn [Exc.bind].
      rewrite Hbi. cbn [Exc.bind]. rewrite Hs. cbn [Exc.bind].
      rewrite Hsi. reflexivity. }
    unfold video_info, probe_duration. rewrite E. split; reflexivity.
Qed.

Lemma video_info_cases_witness :
  video_info SampleProbe.loads SampleProbe.to_float SampleProbe.to_int
    (Ok EmptyString)
  = {| VideoInfo.duration := 600;
       VideoInfo.bitrate := None;
       VideoInfo.size := None |} /\
  get_video_info
    (probe_duration SampleProbe.loads SampleProbe.to_float
       SampleProbe.to_int (Ok EmptyString)) = 600.
Proof.
  apply (proj1 (video_info_cases SampleProbe.loads SampleProbe.to_float
                  SampleProbe.to_int EmptyString
                  (JDict [("format"%string,
                           JDict [("duration"%string, JFloat (25 # 2))])])
                  (JDict [("duration"%string, JFloat (25 # 2))])
                  eq_refl eq_refl) KeyError).
  reflexivity.
Defined.
